(** * ch341-py-smbus: I2C transactions over the CH341 USB bridge

    A shallow embedding of [src/ch341-py-smbus.py].  Python integers are
    unbounded, so they are modelled by [Z]; Python lists of integers by
    [list Z].  The pyusb device handle [self.dev] is an external object: it
    is modelled as an interface ([UsbDevice]) whose two methods may return a
    value or raise [usb.core.USBError].  Everything the driver does to the
    outside world is recorded: each call on the device is appended to a
    trace, each call of [print] to the console log. *)

From Stdlib Require Import ZArith List String Bool Lia HexString Sorted.
Import ListNotations.
Open Scope Z_scope.

(** ** Command constants (classes [VendorCmd] and [I2CCmd]) *)

Module VendorCmd.
Definition READ_REG : Z := 0x95.
Definition WRITE_REG : Z := 0x9a.
Definition SERIAL : Z := 0xa1.
Definition PRINT : Z := 0xa3.
Definition MODEM : Z := 0xa4.
Definition MEMW : Z := 0xa6.
Definition MEMR : Z := 0xac.
Definition SPI : Z := 0xa8.
Definition SIO : Z := 0xa9.
Definition I2C : Z := 0xaa.
Definition UIO : Z := 0xab.
Definition I2C_STATUS : Z := 0x52.
Definition I2C_COMMAND : Z := 0x53.
Definition VERSION : Z := 0x5f.
End VendorCmd.

Module I2CCmd.
Definition STA : Z := 0x74.
Definition STO : Z := 0x75.
Definition OUT : Z := 0x80.
Definition IN : Z := 0xc0.
Definition MAX : Z := 32.
Definition SET : Z := 0x60.
Definition US : Z := 0x40.
Definition MS : Z := 0x50.
Definition DLY : Z := 0x0f.
Definition END : Z := 0x00.
End I2CCmd.

(** ** Python values and effects *)

(** [len(l)] *)
Definition len {A : Type} (l : list A) : Z := Z.of_nat (List.length l).

(** The two exception classes that occur.  [ConnectionError] is raised by the
    driver itself; [USBError] is what pyusb raises when a transfer fails or
    times out.  [USBError] derives from [IOError], not from [ConnectionError],
    so an [except ConnectionError] clause does not catch it. *)
Inductive exn : Type :=
| ConnectionError (msg : string)
| USBError (msg : string).

Inductive result (A : Type) : Type :=
| Ok (a : A)
| Raise (e : exn).
Arguments Ok {A} a.
Arguments Raise {A} e.

(** Outcome of one call on the device handle. *)
Inductive xfer (A : Type) : Type :=
| Xfer (a : A)
| XferError (msg : string).
Arguments Xfer {A} a.
Arguments XferError {A} msg.

(** The device handle: [dev.write(endpoint, data)] returns the number of bytes
    written, [dev.read(endpoint, size[, timeout])] returns the bytes read. *)
Class UsbDevice (D : Type) : Type := {
  dev_write : D -> Z -> list Z -> xfer Z * D;
  dev_read : D -> Z -> Z -> option Z -> xfer (list Z) * D
}.

(** One call on the device, with what it answered. *)
Inductive event : Type :=
| EvWrite (ep : Z) (data : list Z) (res : xfer Z)
| EvRead (ep : Z) (size : Z) (timeout : option Z) (res : xfer (list Z)).

(** An argument of [print]. *)
Inductive pyobj : Type :=
| OStr (s : string)
| OInts (l : list Z)
| OStrs (l : list string).

Record world (D : Type) : Type := World {
  w_dev : D;
  w_trace : list event;
  w_out : list (list pyobj)
}.
Arguments World {D} _ _ _.
Arguments w_dev {D} _.
Arguments w_trace {D} _.
Arguments w_out {D} _.

(** Argument of [__write_bytes]: the code tests [type(data) is list]. *)
Inductive wdata : Type :=
| WInt (b : Z)
| WList (l : list Z).

(** Value of the local [rval] of the read operations: [None], the array
    returned by [__read_bytes], or its first element. *)
Inductive rvalue : Type :=
| RNone
| RArray (l : list Z)
| RInt (b : Z).

(** Python truthiness of an integer. *)
Definition truthy (z : Z) : bool := negb (z =? 0).

(** ** The driver (class [CH341]) and the bus scan *)

Section Driver.
Context {D : Type} `{UsbDevice D}.

(** Computations: state passing over the world, with exceptions. *)
Definition M (A : Type) : Type := world D -> result A * world D.

Definition ret {A : Type} (a : A) : M A := fun w => (Ok a, w).

Definition bind {A B : Type} (m : M A) (k : A -> M B) : M B :=
  fun w => match m w with
           | (Ok a, w') => k a w'
           | (Raise e, w') => (Raise e, w')
           end.

Definition raise {A : Type} (e : exn) : M A := fun w => (Raise e, w).

Notation "x <- c1 ;; c2" := (bind c1 (fun x => c2))
  (at level 61, c1 at next level, right associativity).
Notation "c1 ;; c2" := (bind c1 (fun _ => c2))
  (at level 61, right associativity).

(** A statement of a function body: it updates the locals [L]. *)
Definition stmt (L : Type) : Type := L -> M L.

(** The statements of a [try] body run in order.  The block ends with the
    locals it reached and with the exception that interrupted it, if any: a
    statement that raises leaves the locals as they were before it. *)
Fixpoint block {L : Type} (body : list (stmt L)) (l : L) (w : world D)
    : (L * option exn) * world D :=
  match body with
  | [] => ((l, None), w)
  | s :: rest =>
      match s l w with
      | (Ok l', w') => block rest l' w'
      | (Raise e, w') => ((l, Some e), w')
      end
  end.

(** [try: body  except ConnectionError as err: handler].  Any other
    exception leaves the [try] statement. *)
Definition try_except {L : Type} (body : list (stmt L))
    (handler : string -> stmt L) : stmt L :=
  fun l w =>
    match block body l w with
    | ((l', None), w') => (Ok l', w')
    | ((l', Some (ConnectionError err)), w') => handler err l' w'
    | ((_, Some e), w') => (Raise e, w')
    end.

(** A call whose value is dropped, and an assignment to the local. *)
Definition call {L A : Type} (m : M A) : stmt L := fun l => m ;; ret l.
Definition assign {L : Type} (m : M L) : stmt L := fun _ => m.

(** [self.dev.write(ep, data)] *)
Definition usb_write (ep : Z) (data : list Z) : M Z :=
  fun w =>
    let '(r, d) := dev_write (w_dev w) ep data in
    let w' := World d (w_trace w ++ [EvWrite ep data r]) (w_out w) in
    match r with
    | Xfer cnt => (Ok cnt, w')
    | XferError msg => (Raise (USBError msg), w')
    end.

(** [self.dev.read(ep, size)] and [self.dev.read(ep, size, timeout)] *)
Definition usb_read (ep size : Z) (timeout : option Z) : M (list Z) :=
  fun w =>
    let '(r, d) := dev_read (w_dev w) ep size timeout in
    let w' := World d (w_trace w ++ [EvRead ep size timeout r]) (w_out w) in
    match r with
    | Xfer rval => (Ok rval, w')
    | XferError msg => (Raise (USBError msg), w')
    end.

(** [print(args...)] *)
Definition print (args : list pyobj) : M unit :=
  fun w => (Ok tt, World (w_dev w) (w_trace w) (w_out w ++ [args])).

Definition EP_OUT : Z := 0x02.
Definition EP_IN : Z := 0x82.

(** The band chosen by the [if]/[elif] chain of [set_speed]. *)
Definition sbit_of_speed (speed : Z) : Z :=
  if speed <? 100 then 0
  else if speed <? 400 then 1
  else if speed <? 750 then 2
  else 3.

Definition set_speed (speed : Z) : M unit :=
  let sbit := sbit_of_speed speed in
  let cmd := [VendorCmd.I2C; Z.lor I2CCmd.SET sbit; I2CCmd.END] in
  cnt <- usb_write EP_OUT cmd ;;
  if negb (cnt =? len cmd)
  then raise (ConnectionError "Failed to issue I2C Set Speed Command")
  else ret tt.

Definition __start : M unit :=
  let cmd := [VendorCmd.I2C; I2CCmd.STA; I2CCmd.END] in
  cnt <- usb_write EP_OUT cmd ;;
  if negb (cnt =? len cmd)
  then raise (ConnectionError "Failed to issue I2C START Command")
  else ret tt.

Definition __stop : M unit :=
  let cmd := [VendorCmd.I2C; I2CCmd.STO; I2CCmd.END] in
  cnt <- usb_write EP_OUT cmd ;;
  if negb (cnt =? len cmd)
  then raise (ConnectionError "Failed to issue I2C STOP Command")
  else ret tt.

(** [rval[0]] is only evaluated when [len(rval) = 1] ([or] short-circuits),
    so the default of [nth] is never used. *)
Definition __check_ack : M bool :=
  rval <- usb_read EP_IN I2CCmd.MAX None ;;
  if negb (len rval =? 1) || truthy (Z.land (nth 0 rval 0) 0x80)
  then ret false
  else ret true.

(** The command list built by [__write_bytes] before it is sent. *)
Definition write_cmd (data : wdata) : list Z :=
  let cmd := [VendorCmd.I2C; I2CCmd.OUT] in
  let cmd := match data with
             | WList l => fold_left (fun c point => c ++ [point]) l cmd
             | WInt b => cmd ++ [b]
             end in
  cmd ++ [I2CCmd.END].

Definition __write_bytes (data : wdata) : M unit :=
  match data with
  | WList l => print [OInts l]
  | WInt _ => ret tt
  end ;;
  let cmd := write_cmd data in
  cnt <- usb_write EP_OUT cmd ;;
  (if negb (cnt =? len cmd)
   then raise (ConnectionError "Failed to issue I2C Send Command")
   else ret tt) ;;
  ack <- __check_ack ;;
  if negb ack
  then raise (ConnectionError "I2C ACK not received")
  else ret tt.

(** The opcode byte of a read request. *)
Definition read_opcode (length : Z) : Z := Z.lor I2CCmd.IN length.

Definition __read_bytes (length : Z) : M (list Z) :=
  let cmd := [VendorCmd.I2C; read_opcode length; I2CCmd.END] in
  cnt <- usb_write EP_OUT cmd ;;
  (if negb (cnt =? len cmd)
   then raise (ConnectionError "Failed to issue I2C Receive Command")
   else ret tt) ;;
  rval <- usb_read EP_IN length (Some 100) ;;
  if negb (len rval =? length)
  then raise (ConnectionError "I2C Received an incorrect number of bytes")
  else ret rval.

Definition detect (addr : Z) : M bool :=
  let rVal := true in
  rVal <- try_except
    [ call __start;
      call (__write_bytes (WInt (Z.shiftl addr 1)));
      call __stop ]
    (fun err _ => print [OStr err] ;; ret false)
    rVal ;;
  ret rVal.

(** [if off is not None: self.__write_bytes(off)] *)
Definition write_off (off : option Z) : list (stmt unit) :=
  match off with
  | Some o => [call (__write_bytes (WInt o))]
  | None => []
  end.

Definition write_byte_data (addr : Z) (off : option Z) (byte : wdata)
    : M unit :=
  try_except
    ([ call __start;
       call (__write_bytes (WInt (Z.shiftl addr 1))) ]
     ++ write_off off
     ++ [ call (__write_bytes byte);
          call __stop ])
    (fun err _ => print [OStr err])
    tt.

(** [rval = rval[0]]; [rval] is then the one-element array that
    [__read_bytes()] returned. *)
Definition index0 : stmt rvalue :=
  fun rval => match rval with
              | RArray l => ret (RInt (nth 0 l 0))
              | _ => ret rval
              end.

Definition read_byte_data (addr : Z) (off : Z) : M rvalue :=
  let rval := RNone in
  rval <- try_except
    [ call __start;
      call (__write_bytes (WInt (Z.shiftl addr 1)));
      call (__write_bytes (WInt off));
      call __stop;
      call __start;
      call (__write_bytes (WInt (Z.lor (Z.shiftl addr 1) 1)));
      assign (rval <- __read_bytes 1 ;; ret (RArray rval));
      index0;
      call __stop ]
    (fun err rval => print [OStr err] ;; ret rval)
    rval ;;
  ret rval.

Definition write_i2c_block_data (addr : Z) (off : option Z) (data : wdata)
    : M unit :=
  try_except
    ([ call __start;
       call (__write_bytes (WInt (Z.shiftl addr 1))) ]
     ++ write_off off
     ++ [ call (__write_bytes data);
          call __stop ])
    (fun err _ => print [OStr err])
    tt.

Definition read_i2c_block_data (addr : Z) (off : Z) (length : Z)
    : M rvalue :=
  let rval := RNone in
  rval <- try_except
    [ call __start;
      call (__write_bytes (WInt (Z.shiftl addr 1)));
      call (__write_bytes (WInt off));
      call __stop;
      call __start;
      call (__write_bytes (WInt (Z.lor (Z.shiftl addr 1) 1)));
      assign (rval <- __read_bytes length ;; ret (RArray rval));
      call __stop ]
    (fun err rval => print [OStr err] ;; ret rval)
    rval ;;
  ret rval.

(** [for i in xs: body] *)
Fixpoint for_in {L : Type} (xs : list Z) (body : Z -> stmt L) : stmt L :=
  fun l =>
    match xs with
    | [] => ret l
    | i :: rest => l' <- body i l ;; for_in rest body l'
    end.

(** [range(n)] *)
Definition range (n : nat) : list Z := map Z.of_nat (seq 0 n).

(** The loop of [scan], which builds the local [results]. *)
Definition scan_results : M (list Z) :=
  let results := [] in
  for_in (range 250)
    (fun i results =>
       r <- detect i ;;
       if r then ret (results ++ [i]) else ret results)
    results.

Definition scan : M unit :=
  results <- scan_results ;;
  print [OStr "Responses from i2c devices at: ";
         OStrs (map HexString.of_Z results)].

(** The four public transfer operations, as a caller invokes them.  The
    write operations have no [return] statement: they return [None]. *)
Inductive operation : Type :=
| WriteByteData (addr : Z) (off : option Z) (byte : wdata)
| WriteBlockData (addr : Z) (off : option Z) (data : wdata)
| ReadByteData (addr off : Z)
| ReadBlockData (addr off length : Z).

Definition run_op (o : operation) : M rvalue :=
  match o with
  | WriteByteData addr off byte => write_byte_data addr off byte ;; ret RNone
  | WriteBlockData addr off data =>
      write_i2c_block_data addr off data ;; ret RNone
  | ReadByteData addr off => read_byte_data addr off
  | ReadBlockData addr off length => read_i2c_block_data addr off length
  end.

End Driver.

(** ** Reading a trace *)

(** What was asked of the device, without its answer. *)
Inductive request : Type :=
| ReqWrite (ep : Z) (data : list Z)
| ReqRead (ep size : Z) (timeout : option Z).

Definition req_of (e : event) : request :=
  match e with
  | EvWrite ep data _ => ReqWrite ep data
  | EvRead ep size timeout _ => ReqRead ep size timeout
  end.

(** A status answer that counts as ACK: exactly one byte, bit 0x80 clear. *)
Definition ack_bytes (rval : list Z) : bool :=
  match rval with
  | [b] => Z.land b 0x80 =? 0
  | _ => false
  end.

(** An event after which the driver carries on: an outbound transfer that
    wrote the whole frame, a status read (the reads without timeout) that
    carries an ACK, a data read (the reads with a timeout) that delivered
    the requested number of bytes. *)
Definition ok_event (e : event) : bool :=
  match e with
  | EvWrite _ data (Xfer cnt) => cnt =? len data
  | EvRead _ _ None (Xfer rval) => ack_bytes rval
  | EvRead _ size (Some _) (Xfer rval) => len rval =? size
  | EvWrite _ _ (XferError _) => false
  | EvRead _ _ _ (XferError _) => false
  end.

(** A status read that carries a NAK. *)
Definition nak_event (e : event) : bool :=
  match e with
  | EvRead _ _ None (Xfer rval) => negb (ack_bytes rval)
  | _ => false
  end.

(** The exception that follows an event that is not [ok_event]. *)
Definition raised_by (ev : event) (e : exn) : Prop :=
  match ev with
  | EvWrite _ _ (XferError m) => e = USBError m
  | EvRead _ _ _ (XferError m) => e = USBError m
  | EvWrite _ _ (Xfer _) => exists msg, e = ConnectionError msg
  | EvRead _ _ None (Xfer _) => e = ConnectionError "I2C ACK not received"
  | EvRead _ _ (Some _) (Xfer _) =>
      e = ConnectionError "I2C Received an incorrect number of bytes"
  end.

(** The message of the [USBError] an event carries, when the device raised. *)
Definition xfer_error (e : event) : option string :=
  match e with
  | EvWrite _ _ (XferError m) => Some m
  | EvRead _ _ _ (XferError m) => Some m
  | _ => None
  end.

(** The phases of a transaction and the requests each one makes. *)
Inductive phase : Type :=
| START
| WRITE (data : wdata)
| READ (length : Z)
| STOP.

Definition phase_requests (p : phase) : list request :=
  match p with
  | START => [ReqWrite EP_OUT [VendorCmd.I2C; I2CCmd.STA; I2CCmd.END]]
  | WRITE data =>
      [ReqWrite EP_OUT (write_cmd data); ReqRead EP_IN I2CCmd.MAX None]
  | READ length =>
      [ReqWrite EP_OUT [VendorCmd.I2C; read_opcode length; I2CCmd.END];
       ReqRead EP_IN length (Some 100)]
  | STOP => [ReqWrite EP_OUT [VendorCmd.I2C; I2CCmd.STO; I2CCmd.END]]
  end.

Definition script (ps : list phase) : list request :=
  List.concat (map phase_requests ps).

(** A run of a script: either every request was made and answered well, or
    the requests stop at the first event that is not [ok_event], with the
    exception it caused. *)
Inductive run_of (reqs : list request) : list event -> option exn -> Prop :=
| run_complete (t : list event) :
    map req_of t = reqs ->
    forallb ok_event t = true ->
    run_of reqs t None
| run_aborted (t : list event) (ev : event) (e : exn) (rest : list request) :
    map req_of t ++ req_of ev :: rest = reqs ->
    forallb ok_event t = true ->
    ok_event ev = false ->
    raised_by ev e ->
    run_of reqs (t ++ [ev]) (Some e).

Definition exn_of {A : Type} (r : result A) : option exn :=
  match r with
  | Ok _ => None
  | Raise e => Some e
  end.

(** The phases of each operation. *)
Definition off_phase (off : option Z) : list phase :=
  match off with
  | Some o => [WRITE (WInt o)]
  | None => []
  end.

Definition probe_phases (addr : Z) : list phase :=
  [START; WRITE (WInt (Z.shiftl addr 1)); STOP].

Definition write_phases (addr : Z) (off : option Z) (data : wdata)
    : list phase :=
  [START; WRITE (WInt (Z.shiftl addr 1))] ++ off_phase off
  ++ [WRITE data; STOP].

Definition read_phases (addr off length : Z) : list phase :=
  [START; WRITE (WInt (Z.shiftl addr 1)); WRITE (WInt off); STOP;
   START; WRITE (WInt (Z.lor (Z.shiftl addr 1) 1)); READ length; STOP].

Definition op_phases (o : operation) : list phase :=
  match o with
  | WriteByteData addr off byte => write_phases addr off byte
  | WriteBlockData addr off data => write_phases addr off data
  | ReadByteData addr off => read_phases addr off 1
  | ReadBlockData addr off length => read_phases addr off length
  end.

(** The two fields of [IN | length], as a check that can be run. *)
Definition opcode_fields_ok (n : Z) : bool :=
  (Z.land (read_opcode n) 0xc0 =? 0xc0) && (Z.land (read_opcode n) 0x3f =? n).

(** A computation follows a script: from any world it only appends to the
    trace and to the console, and what it appends to the trace is a run of
    the script that ends the way the computation does. *)
Definition runs {D A : Type} (m : @M D A) (reqs : list request) : Prop :=
  forall w : world D, exists t outs,
    w_trace (snd (m w)) = w_trace w ++ t /\
    w_out (snd (m w)) = w_out w ++ outs /\
    run_of reqs t (exn_of (fst (m w))).

(** The same for the body of a [try] statement. *)
Definition block_runs {D L : Type} (body : list (@stmt D L))
    (reqs : list request) : Prop :=
  forall (l : L) (w : world D), exists t outs,
    w_trace (snd (block body l w)) = w_trace w ++ t /\
    w_out (snd (block body l w)) = w_out w ++ outs /\
    run_of reqs t (snd (fst (block body l w))).

(** A statement that assigns to no local. *)
Definition keeps {D L : Type} (s : @stmt D L) : Prop :=
  forall l w l' w', s l w = (Ok l', w') -> l' = l.

(** How a [try] statement ends whose handler prints the message and returns:
    [oe] is what interrupted the body, [r] the outcome, [before] and [after]
    the console around the handler. *)
Definition handled {L : Type} (oe : option exn) (l_end l_handled : L)
    (before : list (list pyobj)) (r : result L)
    (after : list (list pyobj)) : Prop :=
  match oe with
  | None => r = Ok l_end /\ after = before
  | Some (ConnectionError err) =>
      r = Ok l_handled /\ after = before ++ [[OStr err]]
  | Some (USBError m) => r = Raise (USBError m) /\ after = before
  end.

(** What an operation hands back once its [try] statement is over, read off
    the trace [t] it left: the write operations return [None]; a read
    operation returns [None] unless its READ phase, the eleventh of its twelve
    requests, delivered the bytes asked for. *)
Definition op_value (o : operation) (t : list event) (v : rvalue) : Prop :=
  match o with
  | WriteByteData _ _ _ => v = RNone
  | WriteBlockData _ _ _ => v = RNone
  | ReadByteData _ _ =>
      (v = RNone /\ (List.length t < 12)%nat) \/
      (exists b, v = RInt b /\ List.length t = 12%nat /\
                 nth_error t 10 = Some (EvRead EP_IN 1 (Some 100) (Xfer [b])))
  | ReadBlockData _ _ length =>
      (v = RNone /\ (List.length t < 12)%nat) \/
      (exists rv, v = RArray rv /\ len rv = length /\
                  List.length t = 12%nat /\
                  nth_error t 10 =
                  Some (EvRead EP_IN length (Some 100) (Xfer rv)))
  end.

(** Probing the addresses [addrs] one after the other from a world: the
    answers of [detect], in order, and the world reached. *)
Inductive probes {D : Type} `{UsbDevice D}
    : world D -> list Z -> list bool -> world D -> Prop :=
| probes_nil (w : world D) : probes w [] [] w
| probes_cons (w w1 w2 : world D) (addr : Z) (r : bool) (addrs : list Z)
    (rs : list bool) :
    detect addr w = (Ok r, w1) ->
    probes w1 addrs rs w2 ->
    probes w (addr :: addrs) (r :: rs) w2.

(** The addresses whose probe answered [True]. *)
Definition answered (addrs : list Z) (rs : list bool) : list Z :=
  map fst (filter snd (combine addrs rs)).

(** The message of the [ConnectionError] the driver raises on an event that
    is not [ok_event], read off the event: a status read and a data read
    have one message each; a short write has the message of the function
    that sent the frame, which the opcode byte of the frame tells. *)
Definition message_of (ev : event) : string :=
  match ev with
  | EvRead _ _ None _ => "I2C ACK not received"
  | EvRead _ _ (Some _) _ => "I2C Received an incorrect number of bytes"
  | EvWrite _ (_ :: op :: _) _ =>
      if op =? I2CCmd.STA then "Failed to issue I2C START Command"
      else if op =? I2CCmd.STO then "Failed to issue I2C STOP Command"
      else if op =? I2CCmd.OUT then "Failed to issue I2C Send Command"
      else if Z.land op I2CCmd.IN =? I2CCmd.IN
           then "Failed to issue I2C Receive Command"
           else "Failed to issue I2C Set Speed Command"
  | EvWrite _ _ _ => ""
  end.

(** What a computation reports: it only appends to the trace; what it
    prints is an initial part of [outs], all of it when it returns; and a
    [ConnectionError] it raises carries the message of the last event. *)
Definition reports {D A : Type} (m : @M D A) (outs : list (list pyobj))
    : Prop :=
  forall w : world D,
    (exists t, w_trace (snd (m w)) = w_trace w ++ t) /\
    (exists o rest,
       w_out (snd (m w)) = w_out w ++ o /\
       o ++ rest = outs /\
       (exn_of (fst (m w)) = None -> rest = [])) /\
    (forall err,
       fst (m w) = Raise (ConnectionError err) ->
       exists t0 ev,
         w_trace (snd (m w)) = w_trace w ++ t0 ++ [ev] /\
         err = message_of ev).

(** The same for the body of a [try] statement. *)
Definition block_reports {D L : Type} (body : list (@stmt D L))
    (outs : list (list pyobj)) : Prop :=
  forall (l : L) (w : world D),
    (exists t, w_trace (snd (block body l w)) = w_trace w ++ t) /\
    (exists o rest,
       w_out (snd (block body l w)) = w_out w ++ o /\
       o ++ rest = outs /\
       (snd (fst (block body l w)) = None -> rest = [])) /\
    (forall err,
       snd (fst (block body l w)) = Some (ConnectionError err) ->
       exists t0 ev,
         w_trace (snd (block body l w)) = w_trace w ++ t0 ++ [ev] /\
         err = message_of ev).

(** What [__write_bytes] prints: a list payload, nothing for a scalar. *)
Definition data_print (data : wdata) : list (list pyobj) :=
  match data with
  | WList l => [[OInts l]]
  | WInt _ => []
  end.

(** What an operation prints when nothing fails. *)
Definition payload_prints (o : operation) : list (list pyobj) :=
  match o with
  | WriteByteData _ _ byte => data_print byte
  | WriteBlockData _ _ data => data_print data
  | ReadByteData _ _ => []
  | ReadBlockData _ _ _ => []
  end.

(** A request that sends the START frame. *)
Definition start_request (r : request) : bool :=
  match r with
  | ReqWrite _ [_; op; _] => op =? I2CCmd.STA
  | _ => false
  end.

(** A value that fits an unsigned byte, and a request all of whose frame
    elements do. *)
Definition byte_range (z : Z) : bool := (0 <=? z) && (z <=? 255).

Definition request_bytes_ok (r : request) : bool :=
  match r with
  | ReqWrite _ data => forallb byte_range data
  | ReqRead _ _ _ => true
  end.

(** The low field of [IN | length], as a check that can be run. *)
Definition opcode_low_ok (n : Z) : bool :=
  read_opcode n =? 0xc0 + n mod 64.

(** A trace is served by a device: each event carries the answer the device
    gave to that request in the state the events before it left. *)
Inductive served {D : Type} `{UsbDevice D} : D -> list event -> D -> Prop :=
| served_nil (d : D) : served d [] d
| served_write (d d' d'' : D) (ep : Z) (data : list Z) (r : xfer Z)
    (t : list event) :
    dev_write d ep data = (r, d') ->
    served d' t d'' ->
    served d (EvWrite ep data r :: t) d''
| served_read (d d' d'' : D) (ep size : Z) (timeout : option Z)
    (r : xfer (list Z)) (t : list event) :
    dev_read d ep size timeout = (r, d') ->
    served d' t d'' ->
    served d (EvRead ep size timeout r :: t) d''.

(** A computation whose trace is what the device served. *)
Definition serves {D : Type} `{UsbDevice D} {A : Type} (m : @M D A) : Prop :=
  forall w : world D, exists t,
    w_trace (snd (m w)) = w_trace w ++ t /\
    served (w_dev w) t (w_dev (snd (m w))).

Definition block_serves {D : Type} `{UsbDevice D} {L : Type}
    (body : list (@stmt D L)) : Prop :=
  forall (l : L) (w : world D), exists t,
    w_trace (snd (block body l w)) = w_trace w ++ t /\
    served (w_dev w) t (w_dev (snd (block body l w))).

(** A device handle that refuses a frame with an element that is no
    unsigned byte, by raising. *)
Definition refuses_non_bytes (D : Type) `{UsbDevice D} : Prop :=
  forall (d : D) (ep : Z) (data : list Z),
    forallb byte_range data = false ->
    exists m, fst (dev_write d ep data) = XferError m.

(** ** A scripted device

    A stand-in for the bridge with canned answers: outbound transfers are
    answered from one queue ([None]: the whole frame was written), inbound
    transfers from another.  An empty queue answers a write in full and a
    read with no bytes. *)
Record scripted : Type := Scripted {
  sc_writes : list (option (xfer Z));
  sc_reads : list (xfer (list Z))
}.

Definition scripted_write (d : scripted) (ep : Z) (data : list Z)
    : xfer Z * scripted :=
  match sc_writes d with
  | [] => (Xfer (len data), d)
  | None :: q => (Xfer (len data), Scripted q (sc_reads d))
  | Some r :: q => (r, Scripted q (sc_reads d))
  end.

Definition scripted_read (d : scripted) (ep size : Z) (timeout : option Z)
    : xfer (list Z) * scripted :=
  match sc_reads d with
  | [] => (Xfer [], d)
  | r :: q => (r, Scripted (sc_writes d) q)
  end.

#[export] Instance scripted_device : UsbDevice scripted := {
  dev_write := scripted_write;
  dev_read := scripted_read
}.

(** A scripted device behind a handle that turns each frame into an array
    of unsigned bytes first, as pyusb does: a frame with an element outside
    0..255 makes the handle raise before anything is sent.  (pyusb raises
    [OverflowError] there; like [USBError] it is no [ConnectionError].) *)
Record bytewise : Type := Bytewise { bw_inner : scripted }.

Definition bytewise_write (d : bytewise) (ep : Z) (data : list Z)
    : xfer Z * bytewise :=
  match find (fun z => negb (byte_range z)) data with
  | Some z =>
      (XferError (if z <? 0
                  then "unsigned byte integer is less than minimum"
                  else "unsigned byte integer is greater than maximum"),
       d)
  | None =>
      let '(r, s) := scripted_write (bw_inner d) ep data in (r, Bytewise s)
  end.

Definition bytewise_read (d : bytewise) (ep size : Z) (timeout : option Z)
    : xfer (list Z) * bytewise :=
  let '(r, s) := scripted_read (bw_inner d) ep size timeout in
  (r, Bytewise s).

#[export] Instance bytewise_device : UsbDevice bytewise := {
  dev_write := bytewise_write;
  dev_read := bytewise_read
}.

(** A fresh world around a device: nothing sent, nothing printed. *)
Definition fresh {D : Type} (d : D) : world D := World d [] [].

(** A bus on which only the device at 7-bit address 0x50 answers: the status
    byte of the [i]-th probe. *)
Definition only_0x50 : scripted :=
  Scripted [] (map (fun i => Xfer [if i =? 0x50 then 0x00 else 0x80])
                   (range 250)).


(** ** Properties *)

(** *** Lists and ranges *)

Lemma len_app {A : Type} (l1 l2 : list A) : len (l1 ++ l2) = len l1 + len l2.
Proof. unfold len. rewrite length_app. lia. Qed.

Lemma range_in (k : nat) (n : Z) : 0 <= n < Z.of_nat k -> In n (range k).
Proof.
  intros Hn. unfold range. apply in_map_iff.
  exists (Z.to_nat n). split; [lia|]. apply in_seq. lia.
Qed.

Lemma in_range (k : nat) (n : Z) : In n (range k) -> 0 <= n < Z.of_nat k.
Proof.
  unfold range. intros Hin. apply in_map_iff in Hin.
  destruct Hin as [i [<- Hi]]. apply in_seq in Hi. lia.
Qed.

Lemma fold_append (l acc : list Z) :
  fold_left (fun c point => c ++ [point]) l acc = acc ++ l.
Proof.
  revert acc. induction l as [|x l IH]; intros acc; simpl.
  - now rewrite app_nil_r.
  - rewrite IH, <- app_assoc. reflexivity.
Qed.

(** *** The read-request opcode *)

Lemma opcode_fields_table : forallb opcode_fields_ok (range 33) = true.
Proof. vm_compute. reflexivity. Qed.

(** C10: for a read length from 0 to 32 the opcode byte [IN | length] keeps
    the two top bits of [IN] (0xc0) and carries the length in its low six
    bits; the length can therefore be read back from the opcode, and two
    lengths of the range with the same opcode are equal. *)
Theorem read_opcode_packs_length (n : Z) :
  0 <= n <= 32 ->
  Z.land (read_opcode n) 0xc0 = 0xc0 /\
  Z.land (read_opcode n) 0x3f = n /\
  (forall m, 0 <= m <= 32 -> read_opcode n = read_opcode m -> n = m).
Proof.
  assert (fields : forall k, 0 <= k <= 32 ->
            Z.land (read_opcode k) 0xc0 = 0xc0 /\
            Z.land (read_opcode k) 0x3f = k).
  { intros k Hk.
    pose proof (proj1 (forallb_forall _ _) opcode_fields_table k) as Htab.
    unfold opcode_fields_ok in Htab.
    rewrite andb_true_iff, !Z.eqb_eq in Htab.
    apply Htab, range_in. simpl. lia. }
  intros Hn. destruct (fields n Hn) as [Htop Hlow].
  repeat split; trivial.
  intros m Hm Heq. destruct (fields m Hm) as [_ Hlow'].
  rewrite <- Hlow, <- Hlow', Heq. reflexivity.
Qed.

Lemma read_opcode_packs_length_witness :
  Z.land (read_opcode 32) 0xc0 = 0xc0 /\
  Z.land (read_opcode 32) 0x3f = 32 /\
  (forall m, 0 <= m <= 32 -> read_opcode 32 = read_opcode m -> 32 = m).
Proof. apply (read_opcode_packs_length 32). lia. Defined.

(** *** Runs of a script *)

Lemma run_of_nil : run_of [] [] None.
Proof. now apply run_complete. Qed.

Lemma run_of_app_ok (r1 r2 : list request) (t1 t2 : list event)
    (oe : option exn) :
  run_of r1 t1 None -> run_of r2 t2 oe -> run_of (r1 ++ r2) (t1 ++ t2) oe.
Proof.
  intros H1 H2. inversion H1 as [t Hreq Hok|]; subst.
  inversion H2 as [t Hreq2 Hok2 | t ev e rest Hreq2 Hok2 Hbad Hexn]; subst.
  - apply run_complete.
    + now rewrite map_app.
    + now rewrite forallb_app, Hok, Hok2.
  - rewrite (app_assoc t1 t [ev]).
    apply run_aborted with (rest := rest); trivial.
    + now rewrite map_app, <- app_assoc.
    + now rewrite forallb_app, Hok, Hok2.
Qed.

Lemma run_of_app_fail (r1 r2 : list request) (t : list event) (e : exn) :
  run_of r1 t (Some e) -> run_of (r1 ++ r2) t (Some e).
Proof.
  intros H1. inversion H1 as [| t0 ev e0 rest Hreq Hok Hbad Hexn]; subst.
  apply run_aborted with (rest := rest ++ r2); trivial.
  now rewrite <- app_assoc.
Qed.

Lemma run_of_one_ok (ev : event) :
  ok_event ev = true -> run_of [req_of ev] [ev] None.
Proof.
  intros Hok. apply run_complete; [reflexivity|].
  simpl. now rewrite Hok.
Qed.

Lemma run_of_one_bad (ev : event) (e : exn) (rest : list request) :
  ok_event ev = false -> raised_by ev e ->
  run_of (req_of ev :: rest) [ev] (Some e).
Proof.
  intros Hbad Hexn.
  apply (run_aborted (req_of ev :: rest) [] ev e rest); trivial.
Qed.

Lemma run_of_cons_ok (ev : event) (reqs : list request) (t : list event)
    (oe : option exn) :
  ok_event ev = true -> run_of reqs t oe ->
  run_of (req_of ev :: reqs) (ev :: t) oe.
Proof.
  intros Hok Hrun.
  apply (run_of_app_ok [req_of ev] reqs [ev] t); trivial.
  now apply run_of_one_ok.
Qed.

(** The requests made are always an initial part of the script. *)
Lemma run_of_prefix (reqs : list request) (t : list event) (oe : option exn) :
  run_of reqs t oe -> exists rest, map req_of t ++ rest = reqs.
Proof.
  intros Hrun. inversion Hrun as [t0 Hreq Hok | t0 ev e rest Hreq Hok Hbad Hexn];
    subst.
  - exists []. now rewrite app_nil_r.
  - exists rest. rewrite map_app, <- app_assoc. reflexivity.
Qed.

Lemma run_of_length (reqs : list request) (t : list event) (oe : option exn) :
  run_of reqs t oe -> (List.length t <= List.length reqs)%nat.
Proof.
  intros Hrun. destruct (run_of_prefix _ _ _ Hrun) as [rest <-].
  rewrite length_app, length_map. lia.
Qed.

Lemma run_of_complete_length (reqs : list request) (t : list event) :
  run_of reqs t None -> List.length t = List.length reqs.
Proof.
  intros Hrun. inversion Hrun; subst. now rewrite length_map.
Qed.

(** When every event of the run is good, the script was run to its end. *)
Lemma run_of_all_ok (reqs : list request) (t : list event) (oe : option exn) :
  run_of reqs t oe -> forallb ok_event t = true ->
  oe = None /\ map req_of t = reqs.
Proof.
  intros Hrun Hall.
  inversion Hrun as [t0 Hreq Hok | t0 ev e rest Hreq Hok Hbad Hexn]; subst.
  - now split.
  - rewrite forallb_app in Hall. simpl in Hall.
    rewrite Hbad, andb_false_r in Hall. discriminate.
Qed.

Lemma in_before_last {A : Type} (t0 t1 t2 : list A) (a ev x : A) :
  t0 ++ [a] = t1 ++ ev :: x :: t2 -> In ev t0.
Proof.
  revert t1. induction t0 as [|b t0 IH]; intros t1 Heq.
  - destruct t1 as [|c [|c' t1]]; discriminate.
  - destruct t1 as [|c t1]; simpl in Heq; injection Heq as -> Heq.
    + now left.
    + right. now apply (IH t1).
Qed.

(** An event that is not good is the last one, and the run ends with the
    exception it caused. *)
Lemma run_of_bad_last (reqs : list request) (t t1 t2 : list event)
    (ev : event) (oe : option exn) :
  run_of reqs t oe -> t = t1 ++ ev :: t2 -> ok_event ev = false ->
  t2 = [] /\ forallb ok_event t1 = true /\
  exists e, oe = Some e /\ raised_by ev e.
Proof.
  intros Hrun Ht Hev.
  inversion Hrun as [t0 Hreq Hok | t0 ev0 e rest Hreq Hok Hbad Hexn]; subst.
  - rewrite forallb_app in Hok. simpl in Hok.
    rewrite Hev, andb_false_r in Hok. discriminate.
  - destruct t2 as [|x t2].
    + apply app_inj_tail in H as [-> ->].
      split; [reflexivity|]. split; [assumption|]. now exists e.
    + exfalso.
      assert (Hin : In ev t0) by (eapply in_before_last; eauto).
      rewrite forallb_forall in Hok. specialize (Hok ev Hin). congruence.
Qed.

Lemma nak_event_not_ok (ev : event) :
  nak_event ev = true ->
  ok_event ev = false /\
  forall e, raised_by ev e -> e = ConnectionError "I2C ACK not received".
Proof.
  destruct ev as [ep data res | ep size [timeout|] [rval | msg]];
    simpl; try discriminate.
  intros Hnak. apply negb_true_iff in Hnak. now split.
Qed.

Section Properties.
Context {D : Type} `{UsbDevice D}.

(** *** Speed bands *)

(** C8: the band of [set_speed] is defined for every requested speed, follows
    the thresholds 100, 400 and 750, never decreases when the speed grows,
    and the frame handed to the device is the selector, [SET | band], [END]. *)
Theorem set_speed_band (speed : Z) :
  (speed < 100 -> sbit_of_speed speed = 0) /\
  (100 <= speed < 400 -> sbit_of_speed speed = 1) /\
  (400 <= speed < 750 -> sbit_of_speed speed = 2) /\
  (750 <= speed -> sbit_of_speed speed = 3) /\
  (forall faster, speed <= faster ->
     sbit_of_speed speed <= sbit_of_speed faster) /\
  (forall w : world D, exists r,
     w_trace (snd (set_speed speed w)) =
     w_trace w ++
       [EvWrite EP_OUT
          [VendorCmd.I2C; Z.lor I2CCmd.SET (sbit_of_speed speed); I2CCmd.END]
          r]).
Proof.
  assert (bands : forall s,
            (s < 100 /\ sbit_of_speed s = 0) \/
            (100 <= s < 400 /\ sbit_of_speed s = 1) \/
            (400 <= s < 750 /\ sbit_of_speed s = 2) \/
            (750 <= s /\ sbit_of_speed s = 3)).
  { intros s. unfold sbit_of_speed.
    destruct (Z.ltb_spec s 100); [lia|].
    destruct (Z.ltb_spec s 400); [lia|].
    destruct (Z.ltb_spec s 750); lia. }
  repeat apply conj; try (pose proof (bands speed); lia).
  - intros faster Hle.
    pose proof (bands speed). pose proof (bands faster). lia.
  - intros w. unfold set_speed, bind, usb_write.
    destruct (dev_write _ _ _) as [[cnt | msg] d].
    + exists (Xfer cnt). destruct (negb _); reflexivity.
    + exists (XferError msg). reflexivity.
Qed.

(** *** Acknowledgement *)

(** C7: when the inbound transfer of [__check_ack] (a request for up to
    [MAX] = 32 bytes) delivers [rval], the check returns a boolean, never an
    exception, and it is [True] exactly when [rval] is a single byte whose
    bit 0x80 is clear. *)
Theorem check_ack_iff (w : world D) (rval : list Z) (d : D) :
  dev_read (w_dev w) EP_IN 32 None = (Xfer rval, d) ->
  exists b : bool,
    __check_ack w =
      (Ok b,
       World d (w_trace w ++ [EvRead EP_IN I2CCmd.MAX None (Xfer rval)])
             (w_out w)) /\
    (b = true <-> exists x, rval = [x] /\ Z.land x 0x80 = 0).
Proof.
  intros Hread. unfold __check_ack, bind, usb_read.
  change I2CCmd.MAX with 32. rewrite Hread. cbv beta iota.
  destruct (Z.eqb_spec (len rval) 1) as [Hlen | Hlen]; cbn [negb orb].
  - destruct rval as [|x [|y rest]];
      try (exfalso; unfold len in Hlen; simpl in Hlen; lia).
    cbn [nth]. unfold truthy.
    destruct (Z.eqb_spec (Z.land x 128) 0) as [Hz | Hz]; cbn [negb].
    + exists true. split; [reflexivity|].
      split; [|reflexivity]. intros _. now exists x.
    + exists false. split; [reflexivity|].
      split; [discriminate|]. intros [x' [Hx' Hz']].
      injection Hx' as ->. contradiction.
  - exists false. split; [reflexivity|].
    split; [discriminate|]. intros [x [-> _]]. exfalso. now apply Hlen.
Qed.

(** *** Write frames *)

(** C1 (as the code has it): for a payload of any length the command built by
    [__write_bytes] is the selector 0xaa, the [OUT] opcode, the payload bytes
    in order and the [END] marker, so it is three bytes longer than the
    payload; the code checks no size, and whatever the length this whole
    frame is handed to the device. *)
Theorem write_bytes_frame (payload : list Z) (w : world D) :
  write_cmd (WList payload) =
    VendorCmd.I2C :: I2CCmd.OUT :: payload ++ [I2CCmd.END] /\
  len (write_cmd (WList payload)) = len payload + 3 /\
  hd 1 (write_cmd (WList payload)) = 0xaa /\
  nth 1 (write_cmd (WList payload)) 1 = 0x80 /\
  last (write_cmd (WList payload)) 1 = 0x00 /\
  firstn (List.length payload) (skipn 2 (write_cmd (WList payload))) = payload /\
  exists r t,
    w_trace (snd (__write_bytes (WList payload) w)) =
    w_trace w ++ EvWrite EP_OUT (write_cmd (WList payload)) r :: t.
Proof.
  assert (Hcmd : write_cmd (WList payload) =
                 VendorCmd.I2C :: I2CCmd.OUT :: payload ++ [I2CCmd.END]).
  { unfold write_cmd. rewrite fold_append. reflexivity. }
  rewrite !Hcmd. split; [reflexivity|].
  split. { unfold len. simpl. rewrite length_app. simpl. lia. }
  split; [reflexivity|]. split; [reflexivity|].
  split. { change (VendorCmd.I2C :: I2CCmd.OUT :: payload ++ [I2CCmd.END])
             with ([VendorCmd.I2C; I2CCmd.OUT] ++ payload ++ [I2CCmd.END]).
           rewrite !app_assoc, last_last. reflexivity. }
  split. { simpl skipn. rewrite firstn_app, firstn_all, Nat.sub_diag.
           simpl. now rewrite app_nil_r. }
  unfold __write_bytes, bind, print, usb_write. simpl w_dev. simpl w_trace.
  rewrite Hcmd.
  destruct (dev_write _ _ _) as [[cnt | msg] d]; simpl.
  - destruct (negb _); simpl.
    + exists (Xfer cnt), []. reflexivity.
    + unfold __check_ack, bind, usb_read. simpl.
      destruct (dev_read _ _ _ _) as [[rval | msg] d']; simpl.
      * exists (Xfer cnt), [EvRead EP_IN I2CCmd.MAX None (Xfer rval)].
        rewrite <- app_assoc. simpl.
        destruct (_ || _); simpl; reflexivity.
      * exists (Xfer cnt), [EvRead EP_IN I2CCmd.MAX None (XferError msg)].
        rewrite <- app_assoc. reflexivity.
  - exists (XferError msg), []. reflexivity.
Qed.

(** *** The primitives follow their phase *)

Lemma runs_ret {A : Type} (a : A) : runs (D := D) (ret a) [].
Proof.
  intros w. exists [], []. simpl. rewrite !app_nil_r.
  repeat split. apply run_of_nil.
Qed.

Lemma runs_print (args : list pyobj) : runs (D := D) (print args) [].
Proof.
  intros w. exists [], [args]. simpl. rewrite app_nil_r.
  repeat split. apply run_of_nil.
Qed.

Lemma runs_bind {A B : Type} (m : @M D A) (k : A -> @M D B)
    (r1 r2 : list request) :
  runs m r1 -> (forall a, runs (k a) r2) -> runs (bind m k) (r1 ++ r2).
Proof.
  intros Hm Hk w. unfold bind.
  destruct (Hm w) as [t1 [o1 [Ht1 [Ho1 Hr1]]]].
  destruct (m w) as [[a | e] w1]; cbn [fst snd exn_of] in *.
  - destruct (Hk a w1) as [t2 [o2 [Ht2 [Ho2 Hr2]]]].
    exists (t1 ++ t2), (o1 ++ o2).
    rewrite Ht2, Ht1, Ho2, Ho1, !app_assoc.
    repeat split. now apply run_of_app_ok.
  - exists t1, o1. repeat split; trivial. now apply run_of_app_fail.
Qed.

(** Sending a frame and comparing the count with its length. *)
Lemma runs_send (cmd : list Z) (msg : string) :
  runs (D := D)
       (bind (usb_write EP_OUT cmd)
             (fun cnt => if negb (cnt =? len cmd)
                         then raise (ConnectionError msg)
                         else ret tt))
       [ReqWrite EP_OUT cmd].
Proof.
  intros w. unfold bind, usb_write.
  destruct (dev_write (w_dev w) EP_OUT cmd) as [[cnt | err] d].
  - destruct (Z.eqb_spec cnt (len cmd)) as [Hcnt | Hcnt];
      cbn [negb fst snd exn_of w_trace w_out ret raise];
      exists [EvWrite EP_OUT cmd (Xfer cnt)], [];
      rewrite app_nil_r; repeat split.
    + apply (run_of_one_ok (EvWrite EP_OUT cmd (Xfer cnt))).
      simpl. now apply Z.eqb_eq.
    + apply (run_of_one_bad (EvWrite EP_OUT cmd (Xfer cnt))).
      * simpl. now apply Z.eqb_neq.
      * simpl. now exists msg.
  - cbn [fst snd exn_of w_trace w_out].
    exists [EvWrite EP_OUT cmd (XferError err)], [].
    rewrite app_nil_r. repeat split.
    now apply (run_of_one_bad (EvWrite EP_OUT cmd (XferError err))).
Qed.

Lemma runs_start : runs (D := D) __start (phase_requests START).
Proof. apply runs_send. Qed.

Lemma runs_stop : runs (D := D) __stop (phase_requests STOP).
Proof. apply runs_send. Qed.

(** The condition tested by [__check_ack]. *)
Lemma check_ack_cond (rval : list Z) :
  negb (len rval =? 1) || truthy (Z.land (nth 0 rval 0) 0x80)
  = negb (ack_bytes rval).
Proof.
  destruct rval as [|x [|y rest]]; try reflexivity.
  unfold len. simpl List.length.
  destruct (Z.eqb_spec (Z.of_nat (S (S (List.length rest)))) 1);
    [lia | reflexivity].
Qed.

(** The status read, with the test [__write_bytes] makes on its result. *)
Lemma runs_ack_check :
  runs (D := D)
       (bind __check_ack
             (fun ack => if negb ack
                         then raise (ConnectionError "I2C ACK not received")
                         else ret tt))
       [ReqRead EP_IN I2CCmd.MAX None].
Proof.
  intros w. unfold __check_ack, bind, usb_read.
  destruct (dev_read (w_dev w) EP_IN I2CCmd.MAX None) as [[rval | err] d].
  - rewrite check_ack_cond.
    destruct (ack_bytes rval) eqn:Hack;
      cbn [negb fst snd exn_of w_trace w_out ret raise];
      exists [EvRead EP_IN I2CCmd.MAX None (Xfer rval)], [];
      rewrite app_nil_r; repeat split.
    + now apply (run_of_one_ok (EvRead EP_IN I2CCmd.MAX None (Xfer rval))).
    + now apply (run_of_one_bad (EvRead EP_IN I2CCmd.MAX None (Xfer rval))).
  - cbn [fst snd exn_of w_trace w_out].
    exists [EvRead EP_IN I2CCmd.MAX None (XferError err)], [].
    rewrite app_nil_r. repeat split.
    now apply (run_of_one_bad (EvRead EP_IN I2CCmd.MAX None (XferError err))).
Qed.

Lemma bind_assoc {A B C : Type} (m : @M D A) (f : A -> M B) (g : B -> M C)
    (w : world D) :
  bind m (fun a => bind (f a) g) w = bind (bind m f) g w.
Proof. unfold bind. destruct (m w) as [[a | e] w']; reflexivity. Qed.

Lemma runs_ext {A : Type} (m m' : @M D A) (reqs : list request) :
  (forall w, m w = m' w) -> runs m' reqs -> runs m reqs.
Proof. intros Heq Hm w. rewrite Heq. apply Hm. Qed.

Lemma runs_write_bytes (data : wdata) :
  runs (D := D) (__write_bytes data) (phase_requests (WRITE data)).
Proof.
  unfold __write_bytes.
  apply (runs_bind _ _ [] (phase_requests (WRITE data))).
  { destruct data; [apply runs_ret | apply runs_print]. }
  intros _. eapply runs_ext.
  - intros w. rewrite bind_assoc. reflexivity.
  - apply (runs_bind _ _ [ReqWrite EP_OUT (write_cmd data)]
                     [ReqRead EP_IN I2CCmd.MAX None]).
    + apply runs_send.
    + intros _. apply runs_ack_check.
Qed.

(** The data read, with the test [__read_bytes] makes on its result. *)
Lemma runs_data_read (length : Z) :
  runs (D := D)
       (bind (usb_read EP_IN length (Some 100))
             (fun rval =>
                if negb (len rval =? length)
                then raise (ConnectionError
                              "I2C Received an incorrect number of bytes")
                else ret rval))
       [ReqRead EP_IN length (Some 100)].
Proof.
  intros w. unfold bind, usb_read.
  destruct (dev_read (w_dev w) EP_IN length (Some 100)) as [[rval | err] d].
  - destruct (Z.eqb_spec (len rval) length) as [Hlen | Hlen];
      cbn [negb fst snd exn_of w_trace w_out ret raise];
      exists [EvRead EP_IN length (Some 100) (Xfer rval)], [];
      rewrite app_nil_r; repeat split.
    + apply (run_of_one_ok (EvRead EP_IN length (Some 100) (Xfer rval))).
      simpl. now apply Z.eqb_eq.
    + apply (run_of_one_bad (EvRead EP_IN length (Some 100) (Xfer rval))).
      * simpl. now apply Z.eqb_neq.
      * reflexivity.
  - cbn [fst snd exn_of w_trace w_out].
    exists [EvRead EP_IN length (Some 100) (XferError err)], [].
    rewrite app_nil_r. repeat split.
    now apply (run_of_one_bad
                 (EvRead EP_IN length (Some 100) (XferError err))).
Qed.

Lemma runs_read_bytes (length : Z) :
  runs (D := D) (__read_bytes length) (phase_requests (READ length)).
Proof.
  unfold __read_bytes. eapply runs_ext.
  - intros w. rewrite bind_assoc. reflexivity.
  - apply (runs_bind _ _
             [ReqWrite EP_OUT [VendorCmd.I2C; read_opcode length; I2CCmd.END]]
             [ReqRead EP_IN length (Some 100)]).
    + apply runs_send.
    + intros _. apply runs_data_read.
Qed.

(** What a successful [__read_bytes] leaves on the trace and returns. *)
Lemma read_bytes_value (length : Z) (w w' : world D) (rv : list Z) :
  __read_bytes length w = (Ok rv, w') ->
  len rv = length /\
  w_out w' = w_out w /\
  exists cnt,
    w_trace w' =
    w_trace w ++
      [EvWrite EP_OUT [VendorCmd.I2C; read_opcode length; I2CCmd.END]
               (Xfer cnt);
       EvRead EP_IN length (Some 100) (Xfer rv)].
Proof.
  unfold __read_bytes, bind, usb_write, usb_read.
  destruct (dev_write _ _ _) as [[cnt | err] d]; [|discriminate].
  destruct (negb (cnt =? _)); [discriminate|].
  cbn [ret w_dev w_trace w_out].
  destruct (dev_read _ _ _ _) as [[rval | err] d']; [|discriminate].
  destruct (Z.eqb_spec (len rval) length) as [Hlen | Hlen];
    cbn [negb ret raise]; [|discriminate].
  intros Heq. injection Heq as <- <-. cbn [w_trace w_out].
  split; [assumption|]. split; [reflexivity|].
  exists cnt. now rewrite <- app_assoc.
Qed.

(** *** Blocks of statements *)

Lemma runs_call {L A : Type} (m : @M D A) (reqs : list request) (l : L) :
  runs m reqs -> runs (call m l) reqs.
Proof.
  intros Hm. unfold call. rewrite <- (app_nil_r reqs).
  apply runs_bind; [assumption|]. intros _. apply runs_ret.
Qed.

Lemma keeps_call {L A : Type} (m : @M D A) : keeps (L := L) (call m).
Proof.
  intros l w l' w'. unfold call, bind, ret.
  destruct (m w) as [[a | e] w1]; [|discriminate].
  now intros [= <- _].
Qed.

Lemma block_runs_nil {L : Type} : block_runs (D := D) (L := L) [] [].
Proof.
  intros l w. exists [], []. simpl. rewrite !app_nil_r.
  repeat split. apply run_of_nil.
Qed.

Lemma block_runs_cons {L : Type} (s : @stmt D L) (rest : list (stmt L))
    (r1 r2 : list request) :
  (forall l, runs (s l) r1) -> block_runs rest r2 ->
  block_runs (s :: rest) (r1 ++ r2).
Proof.
  intros Hs Hrest l w. cbn [block].
  destruct (Hs l w) as [t1 [o1 [Ht1 [Ho1 Hr1]]]].
  destruct (s l w) as [[l' | e] w1]; cbn [fst snd exn_of] in *.
  - destruct (Hrest l' w1) as [t2 [o2 [Ht2 [Ho2 Hr2]]]].
    exists (t1 ++ t2), (o1 ++ o2).
    rewrite Ht2, Ht1, Ho2, Ho1, !app_assoc.
    repeat split. now apply run_of_app_ok.
  - exists t1, o1. repeat split; trivial. now apply run_of_app_fail.
Qed.

Lemma block_keeps {L : Type} (body : list (@stmt D L)) :
  Forall keeps body -> forall l w, fst (fst (block body l w)) = l.
Proof.
  induction 1 as [|s rest Hs _ IH]; intros l w; cbn [block].
  - reflexivity.
  - destruct (s l w) as [[l' | e] w1] eqn:Hrun; [|reflexivity].
    rewrite IH. exact (Hs _ _ _ _ Hrun).
Qed.

Lemma block_app {L : Type} (b1 b2 : list (@stmt D L)) (l : L) (w : world D) :
  block (b1 ++ b2) l w =
  match block b1 l w with
  | ((l1, None), w1) => block b2 l1 w1
  | other => other
  end.
Proof.
  revert l w. induction b1 as [|s b1 IH]; intros l w; cbn [block app].
  - reflexivity.
  - destruct (s l w) as [[l' | e] w1]; [apply IH | reflexivity].
Qed.

(** How a [try] statement whose handler prints the message ends. *)
Lemma try_except_handled {L : Type} (body : list (@stmt D L))
    (handler : string -> stmt L) (hret : L -> L) :
  (forall err l w,
     handler err l w =
     (Ok (hret l), World (w_dev w) (w_trace w) (w_out w ++ [[OStr err]]))) ->
  forall l w,
    w_trace (snd (try_except body handler l w)) =
      w_trace (snd (block body l w)) /\
    handled (snd (fst (block body l w)))
            (fst (fst (block body l w)))
            (hret (fst (fst (block body l w))))
            (w_out (snd (block body l w)))
            (fst (try_except body handler l w))
            (w_out (snd (try_except body handler l w))).
Proof.
  intros Hh l w. unfold try_except.
  destruct (block body l w) as [[l' [[err | m] |]] w']; cbn [fst snd handled].
  - rewrite Hh. cbn [fst snd w_trace w_out]. now repeat split.
  - now repeat split.
  - now repeat split.
Qed.

Lemma bind_ret_r {A : Type} (m : @M D A) (w : world D) : bind m ret w = m w.
Proof. unfold bind, ret. now destruct (m w) as [[a | e] w']. Qed.

Lemma run_of_fail_nonempty (reqs : list request) (t : list event) (e : exn) :
  run_of reqs t (Some e) -> (1 <= List.length t)%nat.
Proof.
  intros Hrun. inversion Hrun; subst. rewrite length_app. simpl. lia.
Qed.

(** A [try] statement over a block that follows a script. *)
Lemma try_except_run {L : Type} (body : list (@stmt D L))
    (handler : string -> stmt L) (hret : L -> L) (reqs : list request) :
  (forall err l w,
     handler err l w =
     (Ok (hret l), World (w_dev w) (w_trace w) (w_out w ++ [[OStr err]]))) ->
  block_runs body reqs ->
  forall l w, exists t outs,
    w_trace (snd (try_except body handler l w)) = w_trace w ++ t /\
    w_trace (snd (block body l w)) = w_trace w ++ t /\
    run_of reqs t (snd (fst (block body l w))) /\
    handled (snd (fst (block body l w)))
            (fst (fst (block body l w)))
            (hret (fst (fst (block body l w))))
            (w_out w ++ outs)
            (fst (try_except body handler l w))
            (w_out (snd (try_except body handler l w))).
Proof.
  intros Hh Hb l w.
  destruct (Hb l w) as [t [outs [Ht [Ho Hr]]]].
  destruct (try_except_handled body handler hret Hh l w) as [Ht' Hhd].
  exists t, outs. rewrite Ht', <- Ho. now repeat split.
Qed.

Ltac follow_script :=
  unfold script; cbn [map List.concat];
  repeat (apply block_runs_cons;
          [ intros ?; apply runs_call;
            first [ apply runs_start | apply runs_stop
                  | apply runs_write_bytes ]
          | ]);
  try apply block_runs_nil.

(** *** The probe *)

Lemma detect_run (addr : Z) (w : world D) :
  exists t oe outs,
    w_trace (snd (detect addr w)) = w_trace w ++ t /\
    run_of (script (probe_phases addr)) t oe /\
    handled oe true false (w_out w ++ outs)
            (fst (detect addr w)) (w_out (snd (detect addr w))).
Proof.
  unfold detect. rewrite bind_ret_r.
  match goal with
  | |- context [try_except ?body ?handler true w] =>
      destruct (try_except_run body handler (fun _ => false)
                  (script (probe_phases addr))) with (l := true) (w := w)
        as [t [outs [Ht [_ [Hr Hhd]]]]];
      [ reflexivity
      | unfold probe_phases; follow_script
      | rewrite (block_keeps body) in Hhd
          by (repeat constructor; apply keeps_call) ]
  end.
  eauto 10.
Qed.

(** *** The write operations *)

Lemma write_run (addr : Z) (off : option Z) (data : wdata) (w : world D) :
  exists t oe outs,
    w_trace (snd (write_byte_data addr off data w)) = w_trace w ++ t /\
    run_of (script (write_phases addr off data)) t oe /\
    handled oe tt tt (w_out w ++ outs)
            (fst (write_byte_data addr off data w))
            (w_out (snd (write_byte_data addr off data w))).
Proof.
  unfold write_byte_data.
  match goal with
  | |- context [try_except ?body ?handler tt w] =>
      destruct (try_except_run body handler (fun l => l)
                  (script (write_phases addr off data))) with (l := tt) (w := w)
        as [t [outs [Ht [_ [Hr Hhd]]]]];
      [ intros err [] w0; reflexivity
      | unfold write_phases; destruct off; cbn [write_off off_phase app];
        follow_script
      | destruct (fst (fst (block body tt w))) ]
  end.
  eauto 10.
Qed.

Lemma returns_none (m : @M D unit) (w : world D) (oe : option exn)
    (before : list (list pyobj)) :
  handled oe tt tt before (fst (m w)) (w_out (snd (m w))) ->
  w_trace (snd (bind m (fun _ => ret RNone) w)) = w_trace (snd (m w)) /\
  handled oe RNone RNone before
          (fst (bind m (fun _ => ret RNone) w))
          (w_out (snd (bind m (fun _ => ret RNone) w))).
Proof.
  unfold bind, ret.
  destruct (m w) as [[[] | e] w']; destruct oe as [[err | msg] |];
    cbn [handled fst snd]; intros [Hr Ho];
    try discriminate; try injection Hr as ->; now repeat split.
Qed.

(** *** The read operations *)

Lemma read_body_runs (addr off length : Z) :
  block_runs (D := D)
    [ call __start;
      call (__write_bytes (WInt (Z.shiftl addr 1)));
      call (__write_bytes (WInt off));
      call __stop;
      call __start;
      call (__write_bytes (WInt (Z.lor (Z.shiftl addr 1) 1)));
      assign (bind (__read_bytes length) (fun rval => ret (RArray rval)));
      call __stop ]
    (script (read_phases addr off length)).
Proof.
  unfold read_phases. follow_script.
  apply block_runs_cons.
  - intros l. unfold assign.
    change (phase_requests (READ length))
      with (phase_requests (READ length) ++ []).
    apply runs_bind; [apply runs_read_bytes | intros; apply runs_ret].
  - follow_script.
Qed.

Lemma read_body_value (addr off length : Z) (w : world D) :
  exists t,
    w_trace
      (snd (block
              [ call __start;
                call (__write_bytes (WInt (Z.shiftl addr 1)));
                call (__write_bytes (WInt off));
                call __stop;
                call __start;
                call (__write_bytes (WInt (Z.lor (Z.shiftl addr 1) 1)));
                assign (bind (__read_bytes length)
                             (fun rval => ret (RArray rval)));
                call __stop ] RNone w)) = w_trace w ++ t /\
    op_value (ReadBlockData addr off length) t
      (fst (fst (block
              [ call __start;
                call (__write_bytes (WInt (Z.shiftl addr 1)));
                call (__write_bytes (WInt off));
                call __stop;
                call __start;
                call (__write_bytes (WInt (Z.lor (Z.shiftl addr 1) 1)));
                assign (bind (__read_bytes length)
                             (fun rval => ret (RArray rval)));
                call __stop ] RNone w))).
Proof.
  set (pre := [ call __start;
                call (__write_bytes (WInt (Z.shiftl addr 1)));
                call (__write_bytes (WInt off));
                call __stop;
                call __start;
                call (__write_bytes (WInt (Z.lor (Z.shiftl addr 1) 1))) ]
              : list (@stmt D rvalue)).
  set (post := [ assign (bind (__read_bytes length)
                              (fun rval => ret (RArray rval)));
                 call __stop ] : list (@stmt D rvalue)).
  change (exists t,
            w_trace (snd (block (pre ++ post) RNone w)) = w_trace w ++ t /\
            op_value (ReadBlockData addr off length) t
                     (fst (fst (block (pre ++ post) RNone w)))).
  rewrite block_app.
  assert (Hpre : block_runs pre
                   (script [START; WRITE (WInt (Z.shiftl addr 1));
                            WRITE (WInt off); STOP; START;
                            WRITE (WInt (Z.lor (Z.shiftl addr 1) 1))])).
  { unfold pre. follow_script. }
  assert (Hkeep : fst (fst (block pre RNone w)) = RNone).
  { apply block_keeps. unfold pre. repeat constructor; apply keeps_call. }
  destruct (Hpre RNone w) as [t1 [o1 [Ht1 [_ Hr1]]]].
  destruct (block pre RNone w) as [[l1 [e |]] w1]; cbn [fst snd] in *;
    subst l1.
  - exists t1. split; [assumption|]. left. split; [reflexivity|].
    apply run_of_length in Hr1. simpl in Hr1. lia.
  - apply run_of_complete_length in Hr1. simpl in Hr1.
    unfold post. cbn [block]. unfold assign, call, bind, ret.
    destruct (runs_read_bytes length w1) as [t2 [o2 [Ht2 [_ Hr2]]]].
    destruct (__read_bytes length w1) as [[rv | e] w2] eqn:Hrd;
      cbn [fst snd exn_of] in *.
    + destruct (read_bytes_value _ _ _ _ Hrd) as [Hlen [_ [cnt Hev]]].
      destruct (runs_stop w2) as [t3 [o3 [Ht3 [_ Hr3]]]].
      assert (Hlen3 : List.length t3 = 1%nat).
      { destruct (__stop w2) as [[[] | e] w3]; cbn [fst exn_of] in Hr3.
        - now apply run_of_complete_length in Hr3.
        - pose proof (run_of_length _ _ _ Hr3) as Hle.
          pose proof (run_of_fail_nonempty _ _ _ Hr3) as Hge.
          simpl in Hle. lia. }
      exists (t1 ++ [EvWrite EP_OUT
                       [VendorCmd.I2C; read_opcode length; I2CCmd.END]
                       (Xfer cnt);
                     EvRead EP_IN length (Some 100) (Xfer rv)] ++ t3).
      assert (Hval : forall x : option exn * world D,
                w_trace (snd x) = w_trace w2 ++ t3 ->
                w_trace (snd x) =
                w_trace w ++
                  t1 ++ [EvWrite EP_OUT
                           [VendorCmd.I2C; read_opcode length; I2CCmd.END]
                           (Xfer cnt);
                         EvRead EP_IN length (Some 100) (Xfer rv)] ++ t3).
      { intros x ->. rewrite Hev, Ht1, <- !app_assoc. reflexivity. }
      assert (Hright : op_value (ReadBlockData addr off length)
                (t1 ++ [EvWrite EP_OUT
                          [VendorCmd.I2C; read_opcode length; I2CCmd.END]
                          (Xfer cnt);
                        EvRead EP_IN length (Some 100) (Xfer rv)] ++ t3)
                (RArray rv)).
      { right. exists rv. split; [reflexivity|]. split; [assumption|].
        split.
        - rewrite !length_app. simpl. lia.
        - rewrite nth_error_app2 by lia. rewrite Hr1. reflexivity. }
      destruct (__stop w2) as [[[] | e] w3]; cbn [fst snd] in *;
        (split; [apply (Hval (None, w3)); exact Ht3 | exact Hright]).
    + exists (t1 ++ t2). split.
      * rewrite Ht2, Ht1, app_assoc. reflexivity.
      * left. split; [reflexivity|].
        apply run_of_length in Hr2. simpl in Hr2.
        rewrite length_app. lia.
Qed.

Lemma read_block_run (addr off length : Z) (w : world D) :
  exists t oe outs v,
    w_trace (snd (read_i2c_block_data addr off length w)) = w_trace w ++ t /\
    run_of (script (read_phases addr off length)) t oe /\
    handled oe v v (w_out w ++ outs)
            (fst (read_i2c_block_data addr off length w))
            (w_out (snd (read_i2c_block_data addr off length w))) /\
    op_value (ReadBlockData addr off length) t v.
Proof.
  unfold read_i2c_block_data. rewrite bind_ret_r.
  match goal with
  | |- context [try_except ?body ?handler RNone w] =>
      destruct (try_except_run body handler (fun l => l)
                  (script (read_phases addr off length)))
        with (l := RNone) (w := w)
        as [t [outs [Ht [Hb [Hr Hhd]]]]];
      [ reflexivity | apply read_body_runs | ]
  end.
  destruct (read_body_value addr off length w) as [t' [Hb' Hv]].
  rewrite Hb in Hb'. apply app_inv_head in Hb'. subst t'.
  eauto 10.
Qed.

(** [read_byte_data] is [read_i2c_block_data] for one byte, followed by the
    indexing [rval[0]]. *)
Lemma read_byte_as_block (addr off : Z) (w : world D) :
  read_byte_data addr off w =
  (match fst (read_i2c_block_data addr off 1 w) with
   | Ok (RArray l) => Ok (RInt (nth 0 l 0))
   | r => r
   end,
   snd (read_i2c_block_data addr off 1 w)).
Proof.
  unfold read_byte_data, read_i2c_block_data.
  rewrite !bind_ret_r. unfold try_except.
  set (pre := [ call __start;
                call (__write_bytes (WInt (Z.shiftl addr 1)));
                call (__write_bytes (WInt off));
                call __stop;
                call __start;
                call (__write_bytes (WInt (Z.lor (Z.shiftl addr 1) 1))) ]
              : list (@stmt D rvalue)).
  set (rd := assign (bind (__read_bytes 1) (fun rval => ret (RArray rval)))
             : @stmt D rvalue).
  match goal with
  | |- context [block ?b RNone w] =>
      change b with (pre ++ [rd; index0; call __stop])
  end.
  match goal with
  | |- context [block (?x :: ?b) RNone w] =>
      change (x :: b) with (pre ++ [rd; call __stop])
  end.
  rewrite !block_app.
  assert (Hkeep : fst (fst (block pre RNone w)) = RNone).
  { apply block_keeps. unfold pre. repeat constructor; apply keeps_call. }
  destruct (block pre RNone w) as [[l1 [e |]] w1]; cbn [fst] in Hkeep;
    subst l1.
  - destruct e; reflexivity.
  - cbn [block]. unfold rd, assign, index0, call, bind, ret.
    destruct (__read_bytes 1 w1) as [[rv | e] w2].
    + destruct (__stop w2) as [[[] | e] w3]; [|destruct e]; reflexivity.
    + destruct e; reflexivity.
Qed.

Lemma read_byte_run (addr off : Z) (w : world D) :
  exists t oe outs v,
    w_trace (snd (read_byte_data addr off w)) = w_trace w ++ t /\
    run_of (script (read_phases addr off 1)) t oe /\
    handled oe v v (w_out w ++ outs)
            (fst (read_byte_data addr off w))
            (w_out (snd (read_byte_data addr off w))) /\
    op_value (ReadByteData addr off) t v.
Proof.
  rewrite read_byte_as_block. cbn [fst snd].
  destruct (read_block_run addr off 1 w) as [t [oe [outs [v [Ht [Hr [Hhd Hv]]]]]]].
  exists t, oe, outs.
  destruct Hv as [[-> Hlt] | [rv [-> [Hlen [Hlt Hnth]]]]].
  - exists RNone. split; [assumption|]. split; [assumption|]. split.
    + destruct oe as [[err | m] |]; cbn [handled] in *;
        destruct Hhd as [-> ->]; now split.
    + left. now split.
  - destruct rv as [|b [|c rv]];
      try (exfalso; unfold len in Hlen; simpl in Hlen; lia).
    exists (RInt b). split; [assumption|]. split; [assumption|]. split.
    + destruct oe as [[err | m] |]; cbn [handled] in *;
        destruct Hhd as [-> ->]; now split.
    + right. exists b. now repeat split.
Qed.

(** Every public operation: its trace is a run of its phases, and its
    outcome is the one of a [try] statement that prints and returns. *)
Lemma op_run (o : operation) (w : world D) :
  exists t oe outs v,
    w_trace (snd (run_op o w)) = w_trace w ++ t /\
    run_of (script (op_phases o)) t oe /\
    handled oe v v (w_out w ++ outs)
            (fst (run_op o w)) (w_out (snd (run_op o w))) /\
    op_value o t v.
Proof.
  destruct o as [addr off byte | addr off data | addr off | addr off length];
    cbn [run_op op_phases].
  - destruct (write_run addr off byte w) as [t [oe [outs [Ht [Hr Hhd]]]]].
    destruct (returns_none _ _ _ _ Hhd) as [Ht' Hhd'].
    exists t, oe, outs, RNone. rewrite Ht'. now repeat split.
  - destruct (write_run addr off data w) as [t [oe [outs [Ht [Hr Hhd]]]]].
    destruct (returns_none _ _ _ _ Hhd) as [Ht' Hhd'].
    exists t, oe, outs, RNone.
    change (write_i2c_block_data addr off data)
      with (write_byte_data addr off data).
    rewrite Ht'. now repeat split.
  - apply read_byte_run.
  - apply read_block_run.
Qed.

Lemma raised_by_cases (ev : event) (e : exn) :
  raised_by ev e ->
  match xfer_error ev with
  | Some m => e = USBError m
  | None => exists err, e = ConnectionError err
  end.
Proof.
  destruct ev as [ep data [cnt | m] | ep size [timeout|] [rval | m]];
    simpl; intros Hexn; trivial; eexists; exact Hexn.
Qed.

Lemma run_of_first (rq : request) (reqs : list request) (t : list event)
    (oe : option exn) :
  run_of (rq :: reqs) t oe -> exists ev t', t = ev :: t' /\ req_of ev = rq.
Proof.
  intros Hrun.
  inversion Hrun as [t0 Hreq Hok | t0 ev e rest Hreq Hok Hbad Hexn]; subst.
  - destruct t as [|ev t]; [discriminate|].
    injection Hreq as Hrq _. now exists ev, t.
  - destruct t0 as [|ev0 t0]; simpl in Hreq; injection Hreq as Hrq _.
    + now exists ev, [].
    + now exists ev0, (t0 ++ [ev]).
Qed.

Lemma run_of_full_length (reqs : list request) (t : list event)
    (oe : option exn) :
  run_of reqs t oe -> List.length t = List.length reqs -> map req_of t = reqs.
Proof.
  intros Hrun Hlen. destruct (run_of_prefix _ _ _ Hrun) as [rest Hrest].
  assert (Hnil : rest = []).
  { apply length_zero_iff_nil.
    apply (f_equal (@List.length request)) in Hrest.
    rewrite length_app, length_map in Hrest. lia. }
  subst rest. now rewrite app_nil_r in Hrest.
Qed.

(** *** Failing phases *)

(** C2 (as the code has it): in each of the four transfer operations, a
    status read that carries a NAK is the last thing that happens on the
    channel: no further frame is sent, not even STOP.  The operation does not
    fail: it prints "I2C ACK not received", which names no phase, and
    returns [None]. *)
Theorem nak_stops_operation (o : operation) (w : world D) :
  exists t,
    w_trace (snd (run_op o w)) = w_trace w ++ t /\
    forall t1 ev t2,
      t = t1 ++ ev :: t2 -> nak_event ev = true ->
      t2 = [] /\
      fst (run_op o w) = Ok RNone /\
      exists outs,
        w_out (snd (run_op o w)) =
        w_out w ++ outs ++ [[OStr "I2C ACK not received"]].
Proof.
  destruct (op_run o w) as [t [oe [outs [v [Ht [Hr [Hhd Hv]]]]]]].
  exists t. split; [assumption|].
  intros t1 ev t2 Hsplit Hnak.
  destruct (nak_event_not_ok ev Hnak) as [Hbad Hmsg].
  destruct (run_of_bad_last _ _ _ _ _ _ Hr Hsplit Hbad)
    as [-> [_ [e [-> Hexn]]]].
  rewrite (Hmsg e Hexn) in Hhd. cbn [handled] in Hhd.
  destruct Hhd as [Hres Hout].
  split; [reflexivity|]. split.
  - rewrite Hres. f_equal.
    destruct o as [addr off byte | addr off data | addr off | addr off length];
      cbn [op_value] in Hv; trivial.
    + destruct Hv as [[Hv _] | [b [_ [Hlen _]]]]; [assumption | exfalso].
      pose proof (run_of_full_length _ _ _ Hr Hlen) as Hfull.
      apply (f_equal (fun l => nth_error l 11)) in Hfull.
      rewrite Hsplit, map_app, nth_error_app2 in Hfull;
        rewrite length_map in *; rewrite Hsplit, length_app in Hlen;
        simpl in Hlen; [|lia].
      replace (11 - List.length t1)%nat with 0%nat in Hfull by lia.
      destruct ev as [? ? ? | ? ? [?|] [?|]]; discriminate.
    + destruct Hv as [[Hv _] | [rv [_ [_ [Hlen _]]]]]; [assumption | exfalso].
      pose proof (run_of_full_length _ _ _ Hr Hlen) as Hfull.
      apply (f_equal (fun l => nth_error l 11)) in Hfull.
      rewrite Hsplit, map_app, nth_error_app2 in Hfull;
        rewrite length_map in *; rewrite Hsplit, length_app in Hlen;
        simpl in Hlen; [|lia].
      replace (11 - List.length t1)%nat with 0%nat in Hfull by lia.
      destruct ev as [? ? ? | ? ? [?|] [?|]]; discriminate.
  - exists outs. rewrite Hout, app_assoc. reflexivity.
Qed.


(** C3 (as the code has it): [read_i2c_block_data] checks no length.
    Whatever the length, 0 and values above 32 included, the transaction
    starts (the START frame is the first thing sent) and follows the read
    script with a READ of that length; when no event fails it returns the
    [length] bytes the READ phase delivered. *)
Theorem read_block_any_length (addr off length : Z) (w : world D) :
  exists t,
    w_trace (snd (read_i2c_block_data addr off length w)) = w_trace w ++ t /\
    (exists r t',
       t = EvWrite EP_OUT [VendorCmd.I2C; I2CCmd.STA; I2CCmd.END] r :: t') /\
    (exists rest, map req_of t ++ rest = script (read_phases addr off length)) /\
    (forallb ok_event t = true ->
     map req_of t = script (read_phases addr off length) /\
     exists rv,
       fst (read_i2c_block_data addr off length w) = Ok (RArray rv) /\
       len rv = length /\
       nth_error t 10 = Some (EvRead EP_IN length (Some 100) (Xfer rv))).
Proof.
  destruct (read_block_run addr off length w)
    as [t [oe [outs [v [Ht [Hr [Hhd Hv]]]]]]].
  exists t. split; [assumption|]. split.
  { destruct (run_of_first _ _ _ _ Hr) as [ev [t' [-> Hreq]]].
    destruct ev as [ep data r | ep size timeout r]; [|discriminate].
    injection Hreq as -> ->. now exists r, t'. }
  split; [exact (run_of_prefix _ _ _ Hr)|].
  intros Hall. destruct (run_of_all_ok _ _ _ Hr Hall) as [-> Hfull].
  split; [assumption|].
  cbn [handled] in Hhd. destruct Hhd as [Hres _].
  cbn [op_value] in Hv.
  destruct Hv as [[_ Hlt] | [rv [-> [Hlen [_ Hnth]]]]].
  - apply (f_equal (@List.length request)) in Hfull.
    rewrite length_map in Hfull. simpl in Hfull. lia.
  - now exists rv.
Qed.

(** *** The bus scan *)

Lemma detect_result (addr : Z) (w : world D) :
  (exists r, fst (detect addr w) = Ok r) \/
  (exists m, fst (detect addr w) = Raise (USBError m)).
Proof.
  destruct (detect_run addr w) as [t [oe [outs [_ [_ Hhd]]]]].
  destruct oe as [[err | m] |]; cbn [handled] in Hhd; destruct Hhd as [-> _];
    eauto.
Qed.

Lemma answered_cons (addr : Z) (r : bool) (addrs : list Z) (rs : list bool) :
  answered (addr :: addrs) (r :: rs) =
  (if r then [addr] else []) ++ answered addrs rs.
Proof. unfold answered. simpl. now destruct r. Qed.

Lemma for_in_step {L : Type} (i : Z) (rest : list Z) (body : Z -> @stmt D L)
    (l : L) (w : world D) :
  for_in (i :: rest) body l w =
  match body i l w with
  | (Ok l', w') => for_in rest body l' w'
  | (Raise e, w') => (Raise e, w')
  end.
Proof. reflexivity. Qed.

Lemma scan_body_ok (addr : Z) (results : list Z) (w w1 : world D) (r : bool) :
  detect addr w = (Ok r, w1) ->
  bind (detect addr)
       (fun r => if r then ret (results ++ [addr]) else ret results) w
  = (Ok (if r then results ++ [addr] else results), w1).
Proof. intros Hdet. unfold bind. rewrite Hdet. now destruct r. Qed.

(** The loop of [scan]: either every address was probed in turn and the
    addresses that answered were appended, or a probe raised. *)
Lemma scan_loop (addrs results : list Z) (w : world D) :
  (exists rs w1,
     probes w addrs rs w1 /\
     for_in addrs
       (fun i results =>
          bind (detect i)
               (fun r => if r then ret (results ++ [i]) else ret results))
       results w = (Ok (results ++ answered addrs rs), w1)) \/
  (exists done addr todo rs w1 m w',
     addrs = done ++ addr :: todo /\
     probes w done rs w1 /\
     detect addr w1 = (Raise (USBError m), w') /\
     for_in addrs
       (fun i results =>
          bind (detect i)
               (fun r => if r then ret (results ++ [i]) else ret results))
       results w = (Raise (USBError m), w')).
Proof.
  revert results w. induction addrs as [|addr addrs IH]; intros results w.
  - left. exists [], w. split; [constructor|].
    cbn. now rewrite app_nil_r.
  - rewrite !for_in_step.
    destruct (detect_result addr w) as [[r Hres] | [m Hres]];
      destruct (detect addr w) as [r0 w1] eqn:Hdet; cbn [fst] in Hres;
      subst r0.
    + rewrite !(scan_body_ok _ _ _ _ _ Hdet).
      destruct (IH (if r then results ++ [addr] else results) w1)
        as [[rs [w2 [Hp Hrun]]]
           | [done [a [todo [rs [w2 [m [w' [Hsplit [Hp [Hd Hrun]]]]]]]]]]].
      * left. exists (r :: rs), w2. split.
        { econstructor; eassumption. }
        rewrite Hrun, answered_cons.
        destruct r; now rewrite <- ?app_assoc.
      * right. exists (addr :: done), a, todo, (r :: rs), w2, m, w'.
        repeat split; trivial.
        { now rewrite Hsplit. }
        econstructor; eassumption.
    + right. exists [], addr, addrs, [], w, m, w1.
      unfold bind. rewrite Hdet.
      repeat split; trivial. constructor.
Qed.

Lemma range_sorted (n : nat) : StronglySorted Z.lt (range n).
Proof.
  unfold range. generalize 0%nat as a.
  induction n as [|n IH]; intros a; simpl; constructor.
  - apply IH.
  - apply Forall_forall. intros x Hx.
    apply in_map_iff in Hx. destruct Hx as [i [<- Hi]].
    apply in_seq in Hi. lia.
Qed.

Lemma answered_in (addrs : list Z) (rs : list bool) (a : Z) :
  In a (answered addrs rs) <->
  exists i, nth_error addrs i = Some a /\ nth_error rs i = Some true.
Proof.
  revert rs. induction addrs as [|addr addrs IH]; intros [|r rs].
  - split; [intros [] | intros [[|i] [Hi _]]; discriminate].
  - split; [intros [] | intros [[|i] [Hi _]]; discriminate].
  - split; [intros [] | intros [[|i] [_ Hi]]; discriminate].
  - rewrite answered_cons, in_app_iff, IH. split.
    + intros [Hhead | [i [Ha Hr]]].
      * destruct r; [|contradiction]. destruct Hhead as [<- | []].
        now exists 0%nat.
      * now exists (S i).
    + intros [[|i] [Ha Hr]]; simpl in Ha, Hr.
      * left. injection Ha as <-. injection Hr as ->. now left.
      * right. now exists i.
Qed.

Lemma answered_sorted (addrs : list Z) (rs : list bool) :
  StronglySorted Z.lt addrs -> StronglySorted Z.lt (answered addrs rs).
Proof.
  intros Hs. revert rs. induction Hs as [|addr addrs Hs IH Hall]; intros rs.
  - destruct rs; constructor.
  - destruct rs as [|r rs]; [constructor|].
    rewrite answered_cons.
    assert (Htail : Forall (Z.lt addr) (answered addrs rs)).
    { apply Forall_forall. intros x Hx.
      apply answered_in in Hx. destruct Hx as [i [Hi _]].
      apply nth_error_In in Hi.
      rewrite Forall_forall in Hall. now apply Hall. }
    destruct r; simpl; [constructor|]; trivial.
Qed.

Lemma sorted_nodup (l : list Z) : StronglySorted Z.lt l -> NoDup l.
Proof.
  induction 1 as [|x l Hs IH Hall]; constructor; trivial.
  intros Hin. rewrite Forall_forall in Hall.
  specialize (Hall x Hin). lia.
Qed.

(** X14: over any device, [scan] probes the addresses 0, 1, ..., 249 in this
    order, each once, until a probe raises.  When none raises, the list it
    prints in hexadecimal holds exactly the addresses whose probe returned
    [True], ascending and without repetition; when one raises (only an
    exception of the device handle can do that), the scan ends with that
    exception at that address. *)
Theorem scan_collects_present (w : world D) :
  (List.length (range 250) = 250%nat /\
   StronglySorted Z.lt (range 250) /\
   forall a, In a (range 250) <-> 0 <= a <= 249) /\
  ((exists rs w1,
      probes w (range 250) rs w1 /\
      scan w =
        (Ok tt,
         World (w_dev w1) (w_trace w1)
               (w_out w1 ++
                  [[OStr "Responses from i2c devices at: ";
                    OStrs (map HexString.of_Z (answered (range 250) rs))]])) /\
      (forall a,
         In a (answered (range 250) rs) <->
         exists i, nth_error (range 250) i = Some a /\
                   nth_error rs i = Some true) /\
      StronglySorted Z.lt (answered (range 250) rs) /\
      NoDup (answered (range 250) rs)) \/
   (exists done addr todo rs w1 m w',
      range 250 = done ++ addr :: todo /\
      probes w done rs w1 /\
      detect addr w1 = (Raise (USBError m), w') /\
      scan w = (Raise (USBError m), w'))).
Proof.
  split.
  { split; [|split].
    - unfold range. now rewrite length_map, length_seq.
    - apply range_sorted.
    - intros a. split.
      + intros Hin. apply in_range in Hin. lia.
      + intros Ha. apply range_in. lia. }
  unfold scan, scan_results.
  destruct (scan_loop (range 250) [] w)
    as [[rs [w1 [Hp Hrun]]]
       | [done [addr [todo [rs [w1 [m [w' [Hsplit [Hp [Hd Hrun]]]]]]]]]]].
  - left. exists rs, w1. split; [assumption|]. split.
    + unfold bind at 1. rewrite Hrun. reflexivity.
    + split; [apply answered_in|].
      split; [apply answered_sorted, range_sorted|].
      apply sorted_nodup, answered_sorted, range_sorted.
  - right. exists done, addr, todo, rs, w1, m, w'.
    repeat split; trivial.
    unfold bind at 1. now rewrite Hrun.
Qed.

End Properties.

(** ** Runs on the scripted device *)

Lemma check_ack_iff_witness :
  exists b : bool,
    __check_ack (fresh (Scripted [] [Xfer [0x7f]])) =
      (Ok b,
       World (Scripted [] []) [EvRead EP_IN I2CCmd.MAX None (Xfer [0x7f])] []) /\
    (b = true <-> exists x, [0x7f] = [x] /\ Z.land x 0x80 = 0).
Proof.
  apply (check_ack_iff (fresh (Scripted [] [Xfer [0x7f]])) [0x7f]
           (Scripted [] [])).
  reflexivity.
Defined.

(** C1, the part that fails: an empty payload and a payload of 33 bytes are
    not rejected; the frame goes to the device and the call succeeds. *)
Lemma write_bytes_checks_no_size :
  __write_bytes (WList []) (fresh (Scripted [] [Xfer [0x00]])) =
    (Ok tt,
     World (Scripted [] [])
           [EvWrite EP_OUT [0xaa; 0x80; 0x00] (Xfer 3);
            EvRead EP_IN 32 None (Xfer [0x00])]
           [[OInts []]]) /\
  __write_bytes (WList (repeat 0x11 33)) (fresh (Scripted [] [Xfer [0x00]])) =
    (Ok tt,
     World (Scripted [] [])
           [EvWrite EP_OUT (0xaa :: 0x80 :: repeat 0x11 33 ++ [0x00]) (Xfer 36);
            EvRead EP_IN 32 None (Xfer [0x00])]
           [[OInts (repeat 0x11 33)]]).
Proof. split; vm_compute; reflexivity. Qed.


(** C2, on a run: the device at 0x50 acknowledges its address and refuses the
    offset byte.  The caller gets [None] and no error, the printed message
    names no phase, and no STOP frame (0xaa 0x75 0x00) follows the NAK. *)
Lemma nak_sends_no_stop :
  run_op (WriteByteData 0x50 (Some 0x10) (WInt 0x42))
         (fresh (Scripted [] [Xfer [0x00]; Xfer [0x80]])) =
    (Ok RNone,
     World (Scripted [] [])
           [EvWrite EP_OUT [0xaa; 0x74; 0x00] (Xfer 3);
            EvWrite EP_OUT [0xaa; 0x80; 0xa0; 0x00] (Xfer 4);
            EvRead EP_IN 32 None (Xfer [0x00]);
            EvWrite EP_OUT [0xaa; 0x80; 0x10; 0x00] (Xfer 4);
            EvRead EP_IN 32 None (Xfer [0x80])]
           [[OStr "I2C ACK not received"]]).
Proof. vm_compute. reflexivity. Qed.

(** C3, on a run: a block read of length 0 and one of length 33 are not
    rejected; all twelve requests go to the device and the call returns what
    the READ phase delivered. *)
Lemma read_block_length_unchecked :
  read_i2c_block_data 0x50 0x10 0
    (fresh (Scripted [] [Xfer [0x00]; Xfer [0x00]; Xfer [0x00]; Xfer []])) =
    (Ok (RArray []),
     World (Scripted [] [])
           [EvWrite EP_OUT [0xaa; 0x74; 0x00] (Xfer 3);
            EvWrite EP_OUT [0xaa; 0x80; 0xa0; 0x00] (Xfer 4);
            EvRead EP_IN 32 None (Xfer [0x00]);
            EvWrite EP_OUT [0xaa; 0x80; 0x10; 0x00] (Xfer 4);
            EvRead EP_IN 32 None (Xfer [0x00]);
            EvWrite EP_OUT [0xaa; 0x75; 0x00] (Xfer 3);
            EvWrite EP_OUT [0xaa; 0x74; 0x00] (Xfer 3);
            EvWrite EP_OUT [0xaa; 0x80; 0xa1; 0x00] (Xfer 4);
            EvRead EP_IN 32 None (Xfer [0x00]);
            EvWrite EP_OUT [0xaa; 0xc0; 0x00] (Xfer 3);
            EvRead EP_IN 0 (Some 100) (Xfer []);
            EvWrite EP_OUT [0xaa; 0x75; 0x00] (Xfer 3)]
           []) /\
  read_i2c_block_data 0x50 0x10 33
    (fresh (Scripted [] [Xfer [0x00]; Xfer [0x00]; Xfer [0x00];
                         Xfer (repeat 0x5a 33)])) =
    (Ok (RArray (repeat 0x5a 33)),
     World (Scripted [] [])
           [EvWrite EP_OUT [0xaa; 0x74; 0x00] (Xfer 3);
            EvWrite EP_OUT [0xaa; 0x80; 0xa0; 0x00] (Xfer 4);
            EvRead EP_IN 32 None (Xfer [0x00]);
            EvWrite EP_OUT [0xaa; 0x80; 0x10; 0x00] (Xfer 4);
            EvRead EP_IN 32 None (Xfer [0x00]);
            EvWrite EP_OUT [0xaa; 0x75; 0x00] (Xfer 3);
            EvWrite EP_OUT [0xaa; 0x74; 0x00] (Xfer 3);
            EvWrite EP_OUT [0xaa; 0x80; 0xa1; 0x00] (Xfer 4);
            EvRead EP_IN 32 None (Xfer [0x00]);
            EvWrite EP_OUT [0xaa; 0xe1; 0x00] (Xfer 3);
            EvRead EP_IN 33 (Some 100) (Xfer (repeat 0x5a 33));
            EvWrite EP_OUT [0xaa; 0x75; 0x00] (Xfer 3)]
           []).
Proof. split; vm_compute; reflexivity. Qed.

(** C4, on a run: the READ phase delivers two bytes where three were asked
    for.  The failure is printed by the driver and turned into [None]. *)
Lemma short_read_returns_none :
  read_i2c_block_data 0x50 0x10 3
    (fresh (Scripted [] [Xfer [0x00]; Xfer [0x00]; Xfer [0x00];
                         Xfer [0x11; 0x22]])) =
    (Ok RNone,
     World (Scripted [] [])
           [EvWrite EP_OUT [0xaa; 0x74; 0x00] (Xfer 3);
            EvWrite EP_OUT [0xaa; 0x80; 0xa0; 0x00] (Xfer 4);
            EvRead EP_IN 32 None (Xfer [0x00]);
            EvWrite EP_OUT [0xaa; 0x80; 0x10; 0x00] (Xfer 4);
            EvRead EP_IN 32 None (Xfer [0x00]);
            EvWrite EP_OUT [0xaa; 0x75; 0x00] (Xfer 3);
            EvWrite EP_OUT [0xaa; 0x74; 0x00] (Xfer 3);
            EvWrite EP_OUT [0xaa; 0x80; 0xa1; 0x00] (Xfer 4);
            EvRead EP_IN 32 None (Xfer [0x00]);
            EvWrite EP_OUT [0xaa; 0xc3; 0x00] (Xfer 3);
            EvRead EP_IN 3 (Some 100) (Xfer [0x11; 0x22])]
           [[OStr "I2C Received an incorrect number of bytes"]]).
Proof. vm_compute. reflexivity. Qed.


(** A timeout of the device during a probe does reach the caller. *)
Lemma detect_timeout_propagates :
  fst (detect 0x50
         (fresh (Scripted [None; None] [XferError "Operation timed out"]))) =
  Raise (USBError "Operation timed out").
Proof. vm_compute. reflexivity. Qed.

(** A register read that goes well. *)
Lemma read_byte_data_run :
  read_byte_data 0x50 0x10
    (fresh (Scripted [] [Xfer [0x00]; Xfer [0x00]; Xfer [0x00]; Xfer [0x42]])) =
    (Ok (RInt 0x42),
     World (Scripted [] [])
           [EvWrite EP_OUT [0xaa; 0x74; 0x00] (Xfer 3);
            EvWrite EP_OUT [0xaa; 0x80; 0xa0; 0x00] (Xfer 4);
            EvRead EP_IN 32 None (Xfer [0x00]);
            EvWrite EP_OUT [0xaa; 0x80; 0x10; 0x00] (Xfer 4);
            EvRead EP_IN 32 None (Xfer [0x00]);
            EvWrite EP_OUT [0xaa; 0x75; 0x00] (Xfer 3);
            EvWrite EP_OUT [0xaa; 0x74; 0x00] (Xfer 3);
            EvWrite EP_OUT [0xaa; 0x80; 0xa1; 0x00] (Xfer 4);
            EvRead EP_IN 32 None (Xfer [0x00]);
            EvWrite EP_OUT [0xaa; 0xc1; 0x00] (Xfer 3);
            EvRead EP_IN 1 (Some 100) (Xfer [0x42]);
            EvWrite EP_OUT [0xaa; 0x75; 0x00] (Xfer 3)]
           []).
Proof. vm_compute. reflexivity. Qed.

(** A scan of a bus on which only address 0x50 answers. *)
Lemma scan_only_0x50 :
  fst (scan (fresh only_0x50)) = Ok tt /\
  last (w_out (snd (scan (fresh only_0x50)))) [] =
    [OStr "Responses from i2c devices at: "; OStrs ["0x50"%string]].
Proof. split; vm_compute; reflexivity. Qed.

(** ** Diagnostics and console output *)

Lemma read_opcode_marker (length : Z) :
  Z.land (read_opcode length) I2CCmd.IN = I2CCmd.IN.
Proof.
  unfold read_opcode. apply Z.bits_inj'. intros i _.
  rewrite Z.land_spec, Z.lor_spec.
  destruct (Z.testbit I2CCmd.IN i), (Z.testbit length i); reflexivity.
Qed.

Lemma message_of_receive (ep length : Z) (r : xfer Z) :
  message_of (EvWrite ep [VendorCmd.I2C; read_opcode length; I2CCmd.END] r)
  = "Failed to issue I2C Receive Command"%string.
Proof.
  pose proof (read_opcode_marker length) as Hm. cbn [message_of].
  destruct (Z.eqb_spec (read_opcode length) I2CCmd.STA) as [He | _];
    [rewrite He in Hm; discriminate|].
  destruct (Z.eqb_spec (read_opcode length) I2CCmd.STO) as [He | _];
    [rewrite He in Hm; discriminate|].
  destruct (Z.eqb_spec (read_opcode length) I2CCmd.OUT) as [He | _];
    [rewrite He in Hm; discriminate|].
  now rewrite Hm, Z.eqb_refl.
Qed.

Lemma message_of_send (ep : Z) (data : wdata) (r : xfer Z) :
  message_of (EvWrite ep (write_cmd data) r)
  = "Failed to issue I2C Send Command"%string.
Proof.
  destruct data as [b | l]; [reflexivity|].
  unfold write_cmd. rewrite fold_append. reflexivity.
Qed.

Section Reports.
Context {D : Type} `{UsbDevice D}.

Lemma reports_ret {A : Type} (a : A) : reports (D := D) (ret a) [].
Proof.
  intros w. cbn [ret fst snd exn_of]. split; [|split].
  - exists []. now rewrite app_nil_r.
  - exists [], []. rewrite app_nil_r. now repeat split.
  - discriminate.
Qed.

Lemma reports_print (args : list pyobj) : reports (D := D) (print args) [args].
Proof.
  intros w. cbn [print fst snd exn_of w_trace w_out]. split; [|split].
  - exists []. now rewrite app_nil_r.
  - exists [args], []. now repeat split.
  - discriminate.
Qed.

Lemma reports_bind {A B : Type} (m : @M D A) (k : A -> @M D B)
    (o1 o2 : list (list pyobj)) :
  reports m o1 -> (forall a, reports (k a) o2) ->
  reports (bind m k) (o1 ++ o2).
Proof.
  intros Hm Hk w. unfold bind.
  destruct (Hm w) as [[t1 Ht1] [[p1 [r1 [Hp1 [Hr1 Hn1]]]] Hd1]].
  destruct (m w) as [[a | e] w1]; cbn [fst snd exn_of] in *.
  - destruct (Hk a w1) as [[t2 Ht2] [[p2 [r2 [Hp2 [Hr2 Hn2]]]] Hd2]].
    rewrite (Hn1 eq_refl), app_nil_r in Hr1. subst p1.
    split; [|split].
    + exists (t1 ++ t2). now rewrite Ht2, Ht1, app_assoc.
    + exists (o1 ++ p2), r2. rewrite Hp2, Hp1, <- Hr2, !app_assoc.
      now repeat split.
    + intros err Herr. destruct (Hd2 err Herr) as [t0 [ev [Ht0 Hmsg]]].
      exists (t1 ++ t0), ev. rewrite Ht0, Ht1, <- !app_assoc. now split.
  - split; [|split].
    + now exists t1.
    + exists p1, (r1 ++ o2). rewrite app_assoc, Hr1.
      repeat split; trivial. discriminate.
    + intros err Herr. injection Herr as ->. now apply Hd1.
Qed.

Lemma reports_ext {A : Type} (m m' : @M D A) (outs : list (list pyobj)) :
  (forall w, m w = m' w) -> reports m' outs -> reports m outs.
Proof. intros Heq Hm w. rewrite Heq. apply Hm. Qed.

Lemma reports_send (cmd : list Z) (msg : string) :
  (forall r, message_of (EvWrite EP_OUT cmd r) = msg) ->
  reports (D := D)
          (bind (usb_write EP_OUT cmd)
                (fun cnt => if negb (cnt =? len cmd)
                            then raise (ConnectionError msg)
                            else ret tt))
          [].
Proof.
  intros Hmsg w. unfold bind, usb_write.
  destruct (dev_write (w_dev w) EP_OUT cmd) as [[cnt | err] d];
    [destruct (negb (cnt =? len cmd))|];
    cbn [fst snd exn_of w_trace w_out ret raise];
    (split; [eexists; reflexivity|]);
    (split; [exists [], []; rewrite app_nil_r; now repeat split|]);
    intros e He; try discriminate.
  injection He as <-.
  exists [], (EvWrite EP_OUT cmd (Xfer cnt)). now split.
Qed.

Lemma reports_ack_check :
  reports (D := D)
          (bind __check_ack
                (fun ack => if negb ack
                            then raise (ConnectionError "I2C ACK not received")
                            else ret tt))
          [].
Proof.
  intros w. unfold __check_ack, bind, usb_read.
  destruct (dev_read (w_dev w) EP_IN I2CCmd.MAX None) as [[rval | err] d];
    [destruct (negb _ || _)|];
    cbn [negb fst snd exn_of w_trace w_out ret raise];
    (split; [eexists; reflexivity|]);
    (split; [exists [], []; rewrite app_nil_r; now repeat split|]);
    intros e He; try discriminate.
  injection He as <-.
  exists [], (EvRead EP_IN I2CCmd.MAX None (Xfer rval)). now split.
Qed.

Lemma reports_data_read (length : Z) :
  reports (D := D)
          (bind (usb_read EP_IN length (Some 100))
                (fun rval =>
                   if negb (len rval =? length)
                   then raise (ConnectionError
                                 "I2C Received an incorrect number of bytes")
                   else ret rval))
          [].
Proof.
  intros w. unfold bind, usb_read.
  destruct (dev_read (w_dev w) EP_IN length (Some 100)) as [[rval | err] d];
    [destruct (negb (len rval =? length))|];
    cbn [fst snd exn_of w_trace w_out ret raise];
    (split; [eexists; reflexivity|]);
    (split; [exists [], []; rewrite app_nil_r; now repeat split|]);
    intros e He; try discriminate.
  injection He as <-.
  exists [], (EvRead EP_IN length (Some 100) (Xfer rval)). now split.
Qed.

Lemma reports_start : reports (D := D) __start [].
Proof. apply reports_send. reflexivity. Qed.

Lemma reports_stop : reports (D := D) __stop [].
Proof. apply reports_send. reflexivity. Qed.

Lemma reports_write_bytes (data : wdata) :
  reports (D := D) (__write_bytes data) (data_print data).
Proof.
  unfold __write_bytes.
  rewrite <- (app_nil_r (data_print data)).
  apply reports_bind.
  { destruct data; [apply reports_ret | apply reports_print]. }
  intros _. eapply reports_ext.
  - intros w. rewrite bind_assoc. reflexivity.
  - apply (reports_bind _ _ [] []).
    + apply reports_send. intros r. apply message_of_send.
    + intros _. apply reports_ack_check.
Qed.

Lemma reports_read_bytes (length : Z) :
  reports (D := D) (__read_bytes length) [].
Proof.
  unfold __read_bytes. eapply reports_ext.
  - intros w. rewrite bind_assoc. reflexivity.
  - apply (reports_bind _ _ [] []).
    + apply reports_send. intros r. apply message_of_receive.
    + intros _. apply reports_data_read.
Qed.

Lemma reports_call {L A : Type} (m : @M D A) (outs : list (list pyobj))
    (l : L) :
  reports m outs -> reports (call m l) outs.
Proof.
  intros Hm. unfold call. rewrite <- (app_nil_r outs).
  apply reports_bind; [assumption|]. intros _. apply reports_ret.
Qed.

Lemma block_reports_nil {L : Type} : block_reports (D := D) (L := L) [] [].
Proof.
  intros l w. cbn [block fst snd]. split; [|split].
  - exists []. now rewrite app_nil_r.
  - exists [], []. rewrite app_nil_r. now repeat split.
  - discriminate.
Qed.

Lemma block_reports_cons {L : Type} (s : @stmt D L) (rest : list (stmt L))
    (o1 o2 : list (list pyobj)) :
  (forall l, reports (s l) o1) -> block_reports rest o2 ->
  block_reports (s :: rest) (o1 ++ o2).
Proof.
  intros Hs Hrest l w. cbn [block].
  destruct (Hs l w) as [[t1 Ht1] [[p1 [r1 [Hp1 [Hr1 Hn1]]]] Hd1]].
  destruct (s l w) as [[l' | e] w1]; cbn [fst snd exn_of] in *.
  - destruct (Hrest l' w1) as [[t2 Ht2] [[p2 [r2 [Hp2 [Hr2 Hn2]]]] Hd2]].
    rewrite (Hn1 eq_refl), app_nil_r in Hr1. subst p1.
    split; [|split].
    + exists (t1 ++ t2). now rewrite Ht2, Ht1, app_assoc.
    + exists (o1 ++ p2), r2. rewrite Hp2, Hp1, <- Hr2, !app_assoc.
      now repeat split.
    + intros err Herr. destruct (Hd2 err Herr) as [t0 [ev [Ht0 Hmsg]]].
      exists (t1 ++ t0), ev. rewrite Ht0, Ht1, <- !app_assoc. now split.
  - split; [|split].
    + now exists t1.
    + exists p1, (r1 ++ o2). rewrite app_assoc, Hr1.
      repeat split; trivial. discriminate.
    + intros err Herr. injection Herr as ->. now apply Hd1.
Qed.

(** A [try] statement over a block that follows a script and reports. *)
Lemma try_except_report {L : Type} (body : list (@stmt D L))
    (handler : string -> stmt L) (hret : L -> L) (reqs : list request)
    (outs : list (list pyobj)) :
  (forall err l w,
     handler err l w =
     (Ok (hret l), World (w_dev w) (w_trace w) (w_out w ++ [[OStr err]]))) ->
  block_runs body reqs ->
  block_reports body outs ->
  forall l w, exists t p rest,
    w_trace (snd (try_except body handler l w)) = w_trace w ++ t /\
    w_trace (snd (block body l w)) = w_trace w ++ t /\
    run_of reqs t (snd (fst (block body l w))) /\
    p ++ rest = outs /\
    (snd (fst (block body l w)) = None -> rest = []) /\
    handled (snd (fst (block body l w)))
            (fst (fst (block body l w)))
            (hret (fst (fst (block body l w))))
            (w_out w ++ p)
            (fst (try_except body handler l w))
            (w_out (snd (try_except body handler l w))) /\
    (forall err,
       snd (fst (block body l w)) = Some (ConnectionError err) ->
       exists t0 ev, t = t0 ++ [ev] /\ err = message_of ev).
Proof.
  intros Hh Hb Hrep l w.
  destruct (Hb l w) as [t [outs0 [Ht [_ Hr]]]].
  destruct (Hrep l w) as [_ [[p [rest [Hp [Hrest Hnone]]]] Hdiag]].
  destruct (try_except_handled body handler hret Hh l w) as [Ht' Hhd].
  exists t, p, rest. rewrite Ht', <- Hp.
  repeat split; trivial.
  intros err Herr. destruct (Hdiag err Herr) as [t0 [ev [Ht0 Hmsg]]].
  rewrite Ht in Ht0. apply app_inv_head in Ht0. now exists t0, ev.
Qed.

Ltac follow_phases :=
  unfold script; cbn [map List.concat];
  repeat (apply block_runs_cons;
          [ intros ?; apply runs_call;
            first [ apply runs_start | apply runs_stop
                  | apply runs_write_bytes ]
          | ]);
  try apply block_runs_nil.

Ltac quiet_calls :=
  repeat (apply (block_reports_cons _ _ [] _);
          [ intros ?; apply reports_call;
            first [ apply reports_start | apply reports_stop
                  | apply (reports_write_bytes (WInt _)) ]
          | ]);
  try apply block_reports_nil.

Lemma detect_report (addr : Z) (w : world D) :
  exists t oe,
    w_trace (snd (detect addr w)) = w_trace w ++ t /\
    run_of (script (probe_phases addr)) t oe /\
    handled oe true false (w_out w)
            (fst (detect addr w)) (w_out (snd (detect addr w))) /\
    (forall err,
       oe = Some (ConnectionError err) ->
       exists t0 ev, t = t0 ++ [ev] /\ err = message_of ev).
Proof.
  unfold detect. rewrite bind_ret_r.
  match goal with
  | |- context [try_except ?body ?handler true w] =>
      destruct (try_except_report body handler (fun _ => false)
                  (script (probe_phases addr)) [])
        with (l := true) (w := w)
        as [t [p [rest [Ht [_ [Hr [Hp [_ [Hhd Hdiag]]]]]]]]];
      [ reflexivity
      | unfold probe_phases; follow_phases
      | quiet_calls
      | rewrite (block_keeps body) in Hhd
          by (repeat constructor; apply keeps_call) ]
  end.
  apply app_eq_nil in Hp. destruct Hp as [-> _].
  rewrite app_nil_r in Hhd. eauto 10.
Qed.

Lemma write_body_reports (addr : Z) (off : option Z) (data : wdata) :
  block_reports (D := D)
    ([ call __start;
       call (__write_bytes (WInt (Z.shiftl addr 1))) ]
     ++ write_off off
     ++ [ call (__write_bytes data);
          call __stop ])
    (data_print data).
Proof.
  rewrite <- (app_nil_r (data_print data)).
  destruct off; cbn [write_off app];
    repeat (apply (block_reports_cons _ _ [] _);
            [ intros ?; apply reports_call;
              first [ apply reports_start
                    | apply (reports_write_bytes (WInt _)) ]
            | ]);
    (apply block_reports_cons;
     [ intros ?; apply reports_call, reports_write_bytes | quiet_calls ]).
Qed.

Lemma write_report (addr : Z) (off : option Z) (data : wdata) (w : world D) :
  exists t oe p rest,
    w_trace (snd (write_byte_data addr off data w)) = w_trace w ++ t /\
    run_of (script (write_phases addr off data)) t oe /\
    p ++ rest = data_print data /\
    (oe = None -> rest = []) /\
    handled oe tt tt (w_out w ++ p)
            (fst (write_byte_data addr off data w))
            (w_out (snd (write_byte_data addr off data w))) /\
    (forall err,
       oe = Some (ConnectionError err) ->
       exists t0 ev, t = t0 ++ [ev] /\ err = message_of ev).
Proof.
  unfold write_byte_data.
  match goal with
  | |- context [try_except ?body ?handler tt w] =>
      destruct (try_except_report body handler (fun l => l)
                  (script (write_phases addr off data)) (data_print data))
        with (l := tt) (w := w)
        as [t [p [rest [Ht [_ [Hr [Hp [Hnone [Hhd Hdiag]]]]]]]]];
      [ intros err [] w0; reflexivity
      | unfold write_phases; destruct off; cbn [write_off off_phase app];
        follow_phases
      | apply write_body_reports
      | destruct (fst (fst (block body tt w))) ]
  end.
  eauto 12.
Qed.

Lemma read_body_reports (addr off length : Z) :
  block_reports (D := D)
    [ call __start;
      call (__write_bytes (WInt (Z.shiftl addr 1)));
      call (__write_bytes (WInt off));
      call __stop;
      call __start;
      call (__write_bytes (WInt (Z.lor (Z.shiftl addr 1) 1)));
      assign (bind (__read_bytes length) (fun rval => ret (RArray rval)));
      call __stop ]
    [].
Proof.
  quiet_calls.
  apply (block_reports_cons _ _ [] []).
  - intros l. unfold assign.
    apply (reports_bind _ _ [] []);
      [apply reports_read_bytes | intros; apply reports_ret].
  - quiet_calls.
Qed.

Lemma read_block_report (addr off length : Z) (w : world D) :
  exists t oe v,
    w_trace (snd (read_i2c_block_data addr off length w)) = w_trace w ++ t /\
    run_of (script (read_phases addr off length)) t oe /\
    handled oe v v (w_out w)
            (fst (read_i2c_block_data addr off length w))
            (w_out (snd (read_i2c_block_data addr off length w))) /\
    op_value (ReadBlockData addr off length) t v /\
    (forall err,
       oe = Some (ConnectionError err) ->
       exists t0 ev, t = t0 ++ [ev] /\ err = message_of ev).
Proof.
  unfold read_i2c_block_data. rewrite bind_ret_r.
  match goal with
  | |- context [try_except ?body ?handler RNone w] =>
      destruct (try_except_report body handler (fun l => l)
                  (script (read_phases addr off length)) [])
        with (l := RNone) (w := w)
        as [t [p [rest [Ht [Hb [Hr [Hp [_ [Hhd Hdiag]]]]]]]]];
      [ reflexivity | apply read_body_runs | apply read_body_reports | ]
  end.
  apply app_eq_nil in Hp. destruct Hp as [-> _].
  rewrite app_nil_r in Hhd.
  destruct (read_body_value addr off length w) as [t' [Hb' Hv]].
  rewrite Hb in Hb'. apply app_inv_head in Hb'. subst t'.
  eauto 10.
Qed.

Lemma read_byte_report (addr off : Z) (w : world D) :
  exists t oe v,
    w_trace (snd (read_byte_data addr off w)) = w_trace w ++ t /\
    run_of (script (read_phases addr off 1)) t oe /\
    handled oe v v (w_out w)
            (fst (read_byte_data addr off w))
            (w_out (snd (read_byte_data addr off w))) /\
    op_value (ReadByteData addr off) t v /\
    (forall err,
       oe = Some (ConnectionError err) ->
       exists t0 ev, t = t0 ++ [ev] /\ err = message_of ev).
Proof.
  rewrite read_byte_as_block. cbn [fst snd].
  destruct (read_block_report addr off 1 w)
    as [t [oe [v [Ht [Hr [Hhd [Hv Hdiag]]]]]]].
  exists t, oe.
  destruct Hv as [[-> Hlt] | [rv [-> [Hlen [Hlt Hnth]]]]].
  - exists RNone. split; [assumption|]. split; [assumption|]. split.
    + destruct oe as [[err | m] |]; cbn [handled] in *;
        destruct Hhd as [-> ->]; now split.
    + split; [left; now split | assumption].
  - destruct rv as [|b [|c rv]];
      try (exfalso; unfold len in Hlen; simpl in Hlen; lia).
    exists (RInt b). split; [assumption|]. split; [assumption|]. split.
    + destruct oe as [[err | m] |]; cbn [handled] in *;
        destruct Hhd as [-> ->]; now split.
    + split; [right; exists b; now repeat split | assumption].
Qed.

(** Every public operation, with what it prints. *)
Lemma op_report (o : operation) (w : world D) :
  exists t oe p rest v,
    w_trace (snd (run_op o w)) = w_trace w ++ t /\
    run_of (script (op_phases o)) t oe /\
    p ++ rest = payload_prints o /\
    (oe = None -> rest = []) /\
    handled oe v v (w_out w ++ p)
            (fst (run_op o w)) (w_out (snd (run_op o w))) /\
    op_value o t v /\
    (forall err,
       oe = Some (ConnectionError err) ->
       exists t0 ev, t = t0 ++ [ev] /\ err = message_of ev).
Proof.
  destruct o as [addr off byte | addr off data | addr off | addr off length];
    cbn [run_op op_phases payload_prints].
  - destruct (write_report addr off byte w)
      as [t [oe [p [rest [Ht [Hr [Hp [Hn [Hhd Hdiag]]]]]]]]].
    destruct (returns_none _ _ _ _ Hhd) as [Ht' Hhd'].
    exists t, oe, p, rest, RNone. rewrite Ht'. now repeat split.
  - destruct (write_report addr off data w)
      as [t [oe [p [rest [Ht [Hr [Hp [Hn [Hhd Hdiag]]]]]]]]].
    destruct (returns_none _ _ _ _ Hhd) as [Ht' Hhd'].
    exists t, oe, p, rest, RNone.
    change (write_i2c_block_data addr off data)
      with (write_byte_data addr off data).
    rewrite Ht'. now repeat split.
  - destruct (read_byte_report addr off w)
      as [t [oe [v [Ht [Hr [Hhd [Hv Hdiag]]]]]]].
    exists t, oe, [], [], v. rewrite (app_nil_r (w_out w)).
    now repeat split.
  - destruct (read_block_report addr off length w)
      as [t [oe [v [Ht [Hr [Hhd [Hv Hdiag]]]]]]].
    exists t, oe, [], [], v. rewrite (app_nil_r (w_out w)).
    now repeat split.
Qed.

(** *** Setting the speed *)


(** X2: whatever the speed, the opcode byte [SET | band] of [set_speed] is
    0x60 plus the band, lies between 0x60 and 0x63, has bit 7 and bit 2
    clear, and gives the band back in its two low bits. *)
Theorem set_speed_opcode (speed : Z) :
  Z.lor I2CCmd.SET (sbit_of_speed speed) = 0x60 + sbit_of_speed speed /\
  0x60 <= Z.lor I2CCmd.SET (sbit_of_speed speed) <= 0x63 /\
  Z.testbit (Z.lor I2CCmd.SET (sbit_of_speed speed)) 7 = false /\
  Z.testbit (Z.lor I2CCmd.SET (sbit_of_speed speed)) 2 = false /\
  Z.land (Z.lor I2CCmd.SET (sbit_of_speed speed)) 0x03 = sbit_of_speed speed.
Proof.
  unfold sbit_of_speed.
  destruct (speed <? 100); [|destruct (speed <? 400); [|destruct (speed <? 750)]];
    repeat split; try reflexivity; cbv; discriminate.
Qed.

(** *** The write operations *)

(** X3: [write_byte_data] and [write_i2c_block_data] are the same operation.
    What it sends is always an initial part of START, WRITE(addr<<1),
    WRITE(off) if an offset is given, WRITE(data), STOP; with no offset the
    data phase follows the address phase directly.  When no event fails the
    whole script is performed and the call returns [None]. *)
Theorem write_follows_phases (addr : Z) (off : option Z) (data : wdata)
    (w : world D) :
  write_i2c_block_data addr off data w = write_byte_data addr off data w /\
  exists t,
    w_trace (snd (write_byte_data addr off data w)) = w_trace w ++ t /\
    (exists rest,
       map req_of t ++ rest =
       script ([START; WRITE (WInt (Z.shiftl addr 1))]
               ++ match off with
                  | Some o => [WRITE (WInt o)]
                  | None => []
                  end
               ++ [WRITE data; STOP])) /\
    (forallb ok_event t = true ->
     map req_of t =
       script ([START; WRITE (WInt (Z.shiftl addr 1))]
               ++ match off with
                  | Some o => [WRITE (WInt o)]
                  | None => []
                  end
               ++ [WRITE data; STOP]) /\
     fst (write_byte_data addr off data w) = Ok tt).
Proof.
  split; [reflexivity|].
  destruct (write_run addr off data w) as [t [oe [outs [Ht [Hr Hhd]]]]].
  change (script (write_phases addr off data))
    with (script ([START; WRITE (WInt (Z.shiftl addr 1))]
                  ++ match off with
                     | Some o => [WRITE (WInt o)]
                     | None => []
                     end
                  ++ [WRITE data; STOP])) in Hr.
  exists t. split; [assumption|].
  split; [exact (run_of_prefix _ _ _ Hr)|].
  intros Hall. destruct (run_of_all_ok _ _ _ Hr Hall) as [-> Hfull].
  cbn [handled] in Hhd. now split.
Qed.

(** X12: an operation during which no event fails prints nothing of its
    own: the console only receives the payload of a write when that payload
    is a list (the [print(data)] of [__write_bytes]); scalar writes and
    reads leave it as it was. *)
Theorem success_prints_payload_only (o : operation) (w : world D) :
  exists t,
    w_trace (snd (run_op o w)) = w_trace w ++ t /\
    (forallb ok_event t = true ->
     w_out (snd (run_op o w)) = w_out w ++ payload_prints o /\
     exists v, fst (run_op o w) = Ok v).
Proof.
  destruct (op_report o w)
    as [t [oe [p [rest [v [Ht [Hr [Hp [Hn [Hhd _]]]]]]]]]].
  exists t. split; [assumption|]. intros Hall.
  destruct (run_of_all_ok _ _ _ Hr Hall) as [-> _].
  rewrite (Hn eq_refl), app_nil_r in Hp. subst p.
  cbn [handled] in Hhd. destruct Hhd as [Hres Hout]. eauto.
Qed.

(** *** The read operations *)

Lemma read_block_shape (addr off length : Z) (w : world D) (v : rvalue) :
  fst (read_i2c_block_data addr off length w) = Ok v ->
  exists t,
    w_trace (snd (read_i2c_block_data addr off length w)) = w_trace w ++ t /\
    op_value (ReadBlockData addr off length) t v.
Proof.
  intros Hres.
  destruct (read_block_report addr off length w)
    as [t [oe [v' [Ht [_ [Hhd [Hv _]]]]]]].
  exists t. split; [assumption|].
  destruct oe as [[err | m] |]; cbn [handled] in Hhd;
    destruct Hhd as [Hres' _]; rewrite Hres' in Hres; try discriminate;
    now injection Hres as <-.
Qed.

(** X4: [read_byte_data] is [read_i2c_block_data] for one byte with the
    result unwrapped: both leave the same device state, trace and console;
    the byte read returns [b] exactly when the block read returns the
    one-element array holding [b], [None] exactly when it returns [None],
    and raises exactly what it raises. *)
Theorem read_byte_unwraps_block (addr off : Z) (w : world D) :
  snd (read_byte_data addr off w) = snd (read_i2c_block_data addr off 1 w) /\
  (forall b,
     fst (read_byte_data addr off w) = Ok (RInt b) <->
     fst (read_i2c_block_data addr off 1 w) = Ok (RArray [b])) /\
  (fst (read_byte_data addr off w) = Ok RNone <->
   fst (read_i2c_block_data addr off 1 w) = Ok RNone) /\
  (forall e,
     fst (read_byte_data addr off w) = Raise e <->
     fst (read_i2c_block_data addr off 1 w) = Raise e).
Proof.
  rewrite read_byte_as_block. cbn [fst snd].
  split; [reflexivity|].
  pose proof (read_block_shape addr off 1 w) as Hshape.
  destruct (fst (read_i2c_block_data addr off 1 w)) as [v | e].
  - destruct (Hshape v eq_refl) as [t [_ Hv]]. cbn [op_value] in Hv.
    destruct Hv as [[-> _] | [rv [-> [Hlen _]]]].
    + repeat split; intros; try discriminate; trivial.
    + destruct rv as [|b [|c rv]];
        try (exfalso; unfold len in Hlen; simpl in Hlen; lia).
      cbn [nth].
      repeat split; intros; try discriminate; trivial;
        match goal with Hb : Ok _ = Ok _ |- _ => injection Hb as -> end;
        reflexivity.
  - repeat split; intros; try discriminate; trivial.
Qed.

(** X5: whenever [read_i2c_block_data] returns an array, the array has
    exactly [length] elements and is the one the READ phase, the eleventh
    device call, delivered; anything else it returns is [None].  With a
    negative length it can therefore never return data. *)
Theorem read_block_returns_length (addr off length : Z) (w : world D) :
  (forall v,
     fst (read_i2c_block_data addr off length w) = Ok v ->
     v = RNone \/
     exists rv t,
       v = RArray rv /\ len rv = length /\
       w_trace (snd (read_i2c_block_data addr off length w)) = w_trace w ++ t /\
       nth_error t 10 = Some (EvRead EP_IN length (Some 100) (Xfer rv))) /\
  (length < 0 ->
   forall rv, fst (read_i2c_block_data addr off length w) <> Ok (RArray rv)).
Proof.
  assert (Hshape : forall v,
            fst (read_i2c_block_data addr off length w) = Ok v ->
            v = RNone \/
            exists rv t,
              v = RArray rv /\ len rv = length /\
              w_trace (snd (read_i2c_block_data addr off length w))
              = w_trace w ++ t /\
              nth_error t 10 = Some (EvRead EP_IN length (Some 100) (Xfer rv))).
  { intros v Hres.
    destruct (read_block_shape addr off length w v Hres) as [t [Ht Hv]].
    cbn [op_value] in Hv.
    destruct Hv as [[-> _] | [rv [-> [Hlen [_ Hnth]]]]]; [now left | right].
    now exists rv, t. }
  split; [exact Hshape|].
  intros Hneg rv Hres.
  destruct (Hshape _ Hres) as [Hnone | [rv' [t [Hv [Hlen _]]]]];
    [discriminate|].
  unfold len in Hlen. lia.
Qed.

(** X7: when an operation ends on an event the driver takes for a failure
    (not an exception of the device), the operation returns normally and the
    last line it printed is the message that belongs to that event: the
    START, STOP, Send or Receive message for a short write of such a frame,
    "I2C ACK not received" for a status read, "I2C Received an incorrect
    number of bytes" for a data read.  Before it the console received at
    most the payload of a list write. *)
Theorem printed_message_names_frame (o : operation) (w : world D)
    (t0 : list event) (ev : event) :
  w_trace (snd (run_op o w)) = w_trace w ++ t0 ++ [ev] ->
  ok_event ev = false ->
  xfer_error ev = None ->
  exists v p rest,
    fst (run_op o w) = Ok v /\
    p ++ rest = payload_prints o /\
    w_out (snd (run_op o w)) = w_out w ++ p ++ [[OStr (message_of ev)]].
Proof.
  intros Htrace Hbad Hx.
  destruct (op_report o w)
    as [t [oe [p [rest [v [Ht [Hr [Hp [_ [Hhd [_ Hdiag]]]]]]]]]]].
  rewrite Ht in Htrace. apply app_inv_head in Htrace.
  destruct (run_of_bad_last _ _ _ _ _ _ Hr Htrace Hbad)
    as [_ [_ [e [-> Hexn]]]].
  apply raised_by_cases in Hexn. rewrite Hx in Hexn.
  destruct Hexn as [err ->].
  destruct (Hdiag err eq_refl) as [t0' [ev' [Ht' ->]]].
  rewrite Htrace in Ht'. apply app_inj_tail in Ht'. destruct Ht' as [_ <-].
  cbn [handled] in Hhd. destruct Hhd as [Hres Hout].
  exists v, p, rest. rewrite Hout, <- app_assoc. now repeat split.
Qed.

(** X6: when the READ phase of [read_i2c_block_data] has delivered and the
    closing STOP frame is then written short, the call still returns the
    bytes read; the failure only shows as the line "Failed to issue I2C STOP
    Command" on the console. *)
Theorem read_block_survives_stop (addr off length : Z) (w : world D)
    (t1 : list event) (ev : event) :
  w_trace (snd (read_i2c_block_data addr off length w))
  = w_trace w ++ t1 ++ [ev] ->
  List.length t1 = 11%nat ->
  ok_event ev = false ->
  xfer_error ev = None ->
  exists rv,
    nth_error t1 10 = Some (EvRead EP_IN length (Some 100) (Xfer rv)) /\
    len rv = length /\
    fst (read_i2c_block_data addr off length w) = Ok (RArray rv) /\
    w_out (snd (read_i2c_block_data addr off length w)) =
      w_out w ++ [[OStr "Failed to issue I2C STOP Command"]].
Proof.
  intros Htrace Hlen1 Hbad Hx.
  destruct (read_block_report addr off length w)
    as [t [oe [v [Ht [Hr [Hhd [Hv Hdiag]]]]]]].
  rewrite Ht in Htrace. apply app_inv_head in Htrace.
  destruct (run_of_bad_last _ _ _ _ _ _ Hr Htrace Hbad)
    as [_ [_ [e [-> Hexn]]]].
  apply raised_by_cases in Hexn. rewrite Hx in Hexn.
  destruct Hexn as [err ->].
  destruct (Hdiag err eq_refl) as [t0' [ev' [Ht' ->]]].
  rewrite Htrace in Ht'. apply app_inj_tail in Ht'. destruct Ht' as [_ <-].
  assert (Hlen : List.length t = 12%nat).
  { rewrite Htrace, length_app. simpl. lia. }
  assert (Hstop : req_of ev =
                  ReqWrite EP_OUT [VendorCmd.I2C; I2CCmd.STO; I2CCmd.END]).
  { pose proof (run_of_full_length _ _ _ Hr Hlen) as Hfull.
    apply (f_equal (fun l => nth_error l 11)) in Hfull.
    rewrite Htrace, map_app, nth_error_app2 in Hfull;
      rewrite length_map in *; [|lia].
    rewrite Hlen1 in Hfull. now injection Hfull. }
  assert (Hmsg : message_of ev = "Failed to issue I2C STOP Command"%string).
  { destruct ev as [ep data r | ep size timeout r]; [|discriminate].
    injection Hstop as -> ->. reflexivity. }
  cbn [handled] in Hhd. destruct Hhd as [Hres Hout].
  cbn [op_value] in Hv.
  destruct Hv as [[_ Hlt] | [rv [-> [Hrv [_ Hnth]]]]]; [lia|].
  exists rv. rewrite Htrace, nth_error_app1 in Hnth by lia.
  rewrite Hout, Hmsg. now repeat split.
Qed.

(** *** The probe and the scan, seen from the device and the console *)

Lemma probe_prefix (addr : Z) (t : list event) (rest : list request) :
  map req_of t ++ rest = script (probe_phases addr) ->
  t <> [] ->
  List.length (filter start_request (map req_of t)) = 1%nat /\
  (1 <= List.length t <= 4)%nat.
Proof.
  intros Hpre Hne. rewrite <- (length_map req_of t).
  assert (Hne' : map req_of t <> []) by (now destruct t).
  revert Hpre Hne'. generalize (map req_of t) as l. intros l Hpre Hne'.
  unfold script, probe_phases in Hpre. cbn in Hpre.
  destruct l as [|x1 [|x2 [|x3 [|x4 [|x5 l]]]]]; [contradiction| | | | |];
    cbn [app] in Hpre; injection Hpre; intros; subst;
    try discriminate; (split; [reflexivity | simpl; lia]).
Qed.

(** X8: [detect] makes between one and four device calls.  When it returns
    [True] it has printed nothing; when it returns [False] it has printed
    exactly one line, the message of the event that failed; when it raises
    it has printed nothing. *)
Theorem detect_console (addr : Z) (w : world D) :
  exists t,
    w_trace (snd (detect addr w)) = w_trace w ++ t /\
    (1 <= List.length t <= 4)%nat /\
    match fst (detect addr w) with
    | Ok true => w_out (snd (detect addr w)) = w_out w
    | Ok false =>
        exists t0 ev,
          t = t0 ++ [ev] /\
          w_out (snd (detect addr w)) = w_out w ++ [[OStr (message_of ev)]]
    | Raise _ => w_out (snd (detect addr w)) = w_out w
    end.
Proof.
  destruct (detect_report addr w) as [t [oe [Ht [Hr [Hhd Hdiag]]]]].
  exists t. split; [assumption|]. split.
  - destruct (run_of_prefix _ _ _ Hr) as [rest Hpre].
    apply (probe_prefix addr t rest Hpre).
    unfold script, probe_phases in Hr. cbn [map List.concat] in Hr.
    destruct (run_of_first _ _ _ _ Hr) as [ev [t' [-> _]]]. discriminate.
  - destruct oe as [[err | m] |]; cbn [handled] in Hhd;
      destruct Hhd as [-> Hout]; trivial.
    destruct (Hdiag err eq_refl) as [t0 [ev [-> ->]]].
    now exists t0, ev.
Qed.

Lemma filter_length_app {A : Type} (f : A -> bool) (l1 l2 : list A) :
  List.length (filter f (l1 ++ l2)) =
  (List.length (filter f l1) + List.length (filter f l2))%nat.
Proof. now rewrite filter_app, length_app. Qed.

(** What a chain of probes leaves behind. *)
Lemma probes_traffic (w w1 : world D) (addrs : list Z) (rs : list bool) :
  probes w addrs rs w1 ->
  exists t errs,
    w_trace w1 = w_trace w ++ t /\
    List.length (filter start_request (map req_of t)) = List.length addrs /\
    (List.length addrs <= List.length t <= 4 * List.length addrs)%nat /\
    w_out w1 = w_out w ++ errs /\
    (List.length errs + List.length (answered addrs rs))%nat
    = List.length addrs /\
    Forall (fun line => exists err, line = [OStr err]) errs.
Proof.
  induction 1 as [w | w w1 w2 addr r addrs rs Hdet _ IH].
  - exists [], []. rewrite !app_nil_r. now repeat split.
  - destruct IH as [t2 [errs2 [Ht2 [Hs2 [Hb2 [Ho2 [Hc2 Hf2]]]]]]].
    destruct (detect_console addr w) as [t1 [Ht1 [Hb1 Hout]]].
    destruct (detect_report addr w) as [t1' [oe [Ht1' [Hr _]]]].
    rewrite Ht1 in Ht1'. apply app_inv_head in Ht1'. subst t1'.
    destruct (run_of_prefix _ _ _ Hr) as [rest Hpre].
    assert (Hne : t1 <> []) by (intros ->; simpl in Hb1; lia).
    destruct (probe_prefix addr t1 rest Hpre Hne) as [Hs1 _].
    rewrite Hdet in Ht1, Hout. cbn [fst snd] in Ht1, Hout.
    rewrite answered_cons.
    destruct r.
    + exists (t1 ++ t2), errs2.
      rewrite Ht2, Ht1, Ho2, Hout, map_app, filter_length_app, Hs1, Hs2,
        !length_app, app_assoc.
      cbn [List.length]. repeat split; trivial; lia.
    + destruct Hout as [t0 [ev [_ Hout]]].
      exists (t1 ++ t2), ([OStr (message_of ev)] :: errs2).
      rewrite Ht2, Ht1, Ho2, Hout, map_app, filter_length_app, Hs1, Hs2,
        !length_app, <- !app_assoc.
      cbn [List.length app]. repeat split; trivial; try lia.
      constructor; [now eexists | assumption].
Qed.

(** X9: a scan that returns has sent exactly 250 START frames, one per
    address, in between 250 and 1000 device calls.  On the console it has
    left one error line for each address that did not answer, followed by
    its result line: the error lines and the addresses listed make 250. *)
Theorem scan_traffic (w w' : world D) :
  scan w = (Ok tt, w') ->
  exists t errs found,
    w_trace w' = w_trace w ++ t /\
    List.length (filter start_request (map req_of t)) = 250%nat /\
    (250 <= List.length t <= 1000)%nat /\
    w_out w' =
      w_out w ++ errs ++
      [[OStr "Responses from i2c devices at: ";
        OStrs (map HexString.of_Z found)]] /\
    (List.length errs + List.length found)%nat = 250%nat /\
    Forall (fun line => exists err, line = [OStr err]) errs.
Proof.
  unfold scan, scan_results. unfold bind at 1.
  destruct (scan_loop (range 250) [] w)
    as [[rs [w1 [Hp Hrun]]]
       | [done [addr [todo [rs [w1 [m [w2 [_ [_ [_ Hrun]]]]]]]]]]];
    rewrite Hrun; [|discriminate].
  intros Hw. injection Hw as <-.
  destruct (probes_traffic _ _ _ _ Hp)
    as [t [errs [Ht [Hs [Hb [Ho [Hc Hf]]]]]]].
  assert (Hlen : List.length (range 250) = 250%nat).
  { unfold range. now rewrite length_map, length_seq. }
  rewrite Hlen in *.
  exists t, errs, (answered (range 250) rs).
  cbn [w_trace w_out app]. rewrite Ho, <- app_assoc.
  repeat split; trivial; lia.
Qed.

End Reports.

(** *** Address and length bytes *)

(** X10: every element of the frames a probe of [addr] sends fits an
    unsigned byte exactly when [addr] is a 7-bit address, 0 to 127 (the scan
    goes on to 249).  The address is read back from the address byte by a
    shift, and bit 0 of the byte is the direction: clear in [addr << 1], set
    in [(addr << 1) | 1]. *)
Theorem probe_address_byte (addr : Z) :
  (forallb request_bytes_ok (script (probe_phases addr)) = true <->
   0 <= addr <= 127) /\
  Z.shiftr (Z.shiftl addr 1) 1 = addr /\
  Z.testbit (Z.shiftl addr 1) 0 = false /\
  Z.shiftr (Z.lor (Z.shiftl addr 1) 1) 1 = addr /\
  Z.testbit (Z.lor (Z.shiftl addr 1) 1) 0 = true.
Proof.
  assert (Hback : Z.shiftr (Z.shiftl addr 1) 1 = addr).
  { rewrite Z.shiftr_shiftl_l by lia. apply Z.shiftl_0_r. }
  assert (Hlow : Z.testbit (Z.shiftl addr 1) 0 = false).
  { apply Z.shiftl_spec_low. lia. }
  split; [|split; [assumption|split; [assumption|split]]].
  - assert (Hbyte : forall x,
              forallb request_bytes_ok (script [START; WRITE (WInt x); STOP])
              = byte_range x).
    { intros x. unfold script.
      cbn [map List.concat phase_requests app forallb request_bytes_ok
           write_cmd].
      destruct (byte_range x); reflexivity. }
    unfold probe_phases. rewrite Hbyte. unfold byte_range.
    rewrite andb_true_iff, !Z.leb_le, Z.shiftl_mul_pow2 by lia.
    change (2 ^ 1) with 2. lia.
  - rewrite Z.shiftr_lor, Hback. apply Z.lor_0_r.
  - rewrite Z.lor_spec, Hlow. reflexivity.
Qed.

Lemma opcode_low_table : forallb opcode_low_ok (range 256) = true.
Proof. vm_compute. reflexivity. Qed.

(** X11: the low six bits of the read opcode [IN | length] hold the length
    modulo 64, whatever the length.  For a length from 0 to 255 the opcode
    is 0xc0 plus the length modulo 64, so a length above 63 sends the request
    frame of the length 64 below it. *)
Theorem read_opcode_low_field (n : Z) :
  Z.land (read_opcode n) 0x3f = n mod 64 /\
  (0 <= n <= 255 -> read_opcode n = 0xc0 + n mod 64) /\
  (0 <= n <= 191 -> read_opcode (n + 64) = read_opcode n).
Proof.
  assert (Htab : forall k, 0 <= k <= 255 -> read_opcode k = 0xc0 + k mod 64).
  { intros k Hk.
    pose proof (proj1 (forallb_forall _ _) opcode_low_table k) as Hk'.
    apply Z.eqb_eq, Hk', range_in. simpl. lia. }
  split; [|split].
  - unfold read_opcode. change 0x3f with (Z.ones 6).
    rewrite Z.land_lor_distr_l, !Z.land_ones by lia.
    change (I2CCmd.IN mod 2 ^ 6) with 0. change (2 ^ 6) with 64.
    apply Z.lor_0_l.
  - apply Htab.
  - intros Hn. rewrite !Htab by lia.
    rewrite <- (Z.mul_1_l 64) at 1. now rewrite Z.mod_add.
Qed.

(** ** More runs on the scripted device *)

Lemma printed_message_names_frame_witness :
  exists v p rest,
    fst (run_op (WriteBlockData 0x50 (Some 0x10) (WList [0x11; 0x22]))
                (fresh (Scripted [] [Xfer [0x00]; Xfer [0x00]; Xfer [0x80]])))
    = Ok v /\
    p ++ rest =
      payload_prints (WriteBlockData 0x50 (Some 0x10) (WList [0x11; 0x22])) /\
    w_out (snd (run_op (WriteBlockData 0x50 (Some 0x10) (WList [0x11; 0x22]))
                  (fresh (Scripted [] [Xfer [0x00]; Xfer [0x00];
                                       Xfer [0x80]])))) =
      w_out (fresh (Scripted [] [Xfer [0x00]; Xfer [0x00]; Xfer [0x80]]))
      ++ p ++ [[OStr (message_of (EvRead EP_IN 32 None (Xfer [0x80])))]].
Proof.
  apply (printed_message_names_frame
           (WriteBlockData 0x50 (Some 0x10) (WList [0x11; 0x22]))
           (fresh (Scripted [] [Xfer [0x00]; Xfer [0x00]; Xfer [0x80]]))
           [EvWrite EP_OUT [0xaa; 0x74; 0x00] (Xfer 3);
            EvWrite EP_OUT [0xaa; 0x80; 0xa0; 0x00] (Xfer 4);
            EvRead EP_IN 32 None (Xfer [0x00]);
            EvWrite EP_OUT [0xaa; 0x80; 0x10; 0x00] (Xfer 4);
            EvRead EP_IN 32 None (Xfer [0x00]);
            EvWrite EP_OUT [0xaa; 0x80; 0x11; 0x22; 0x00] (Xfer 5)]
           (EvRead EP_IN 32 None (Xfer [0x80])));
    vm_compute; reflexivity.
Defined.

Lemma read_block_survives_stop_witness :
  exists rv,
    nth_error
      [EvWrite EP_OUT [0xaa; 0x74; 0x00] (Xfer 3);
       EvWrite EP_OUT [0xaa; 0x80; 0xa0; 0x00] (Xfer 4);
       EvRead EP_IN 32 None (Xfer [0x00]);
       EvWrite EP_OUT [0xaa; 0x80; 0x10; 0x00] (Xfer 4);
       EvRead EP_IN 32 None (Xfer [0x00]);
       EvWrite EP_OUT [0xaa; 0x75; 0x00] (Xfer 3);
       EvWrite EP_OUT [0xaa; 0x74; 0x00] (Xfer 3);
       EvWrite EP_OUT [0xaa; 0x80; 0xa1; 0x00] (Xfer 4);
       EvRead EP_IN 32 None (Xfer [0x00]);
       EvWrite EP_OUT [0xaa; 0xc2; 0x00] (Xfer 3);
       EvRead EP_IN 2 (Some 100) (Xfer [0x11; 0x22])] 10
    = Some (EvRead EP_IN 2 (Some 100) (Xfer rv)) /\
    len rv = 2 /\
    fst (read_i2c_block_data 0x50 0x10 2
           (fresh (Scripted [None; None; None; None; None; None; None;
                             Some (Xfer 0)]
                            [Xfer [0x00]; Xfer [0x00]; Xfer [0x00];
                             Xfer [0x11; 0x22]])))
    = Ok (RArray rv) /\
    w_out (snd (read_i2c_block_data 0x50 0x10 2
                  (fresh (Scripted [None; None; None; None; None; None; None;
                                    Some (Xfer 0)]
                                   [Xfer [0x00]; Xfer [0x00]; Xfer [0x00];
                                    Xfer [0x11; 0x22]])))) =
      w_out (fresh (Scripted [None; None; None; None; None; None; None;
                              Some (Xfer 0)]
                             [Xfer [0x00]; Xfer [0x00]; Xfer [0x00];
                              Xfer [0x11; 0x22]]))
      ++ [[OStr "Failed to issue I2C STOP Command"]].
Proof.
  apply (read_block_survives_stop 0x50 0x10 2
           (fresh (Scripted [None; None; None; None; None; None; None;
                             Some (Xfer 0)]
                            [Xfer [0x00]; Xfer [0x00]; Xfer [0x00];
                             Xfer [0x11; 0x22]]))
           _ (EvWrite EP_OUT [0xaa; 0x75; 0x00] (Xfer 0)));
    vm_compute; reflexivity.
Defined.

Lemma scan_traffic_witness :
  exists t errs found,
    w_trace (snd (scan (fresh only_0x50))) =
      w_trace (fresh only_0x50) ++ t /\
    List.length (filter start_request (map req_of t)) = 250%nat /\
    (250 <= List.length t <= 1000)%nat /\
    w_out (snd (scan (fresh only_0x50))) =
      w_out (fresh only_0x50) ++ errs ++
      [[OStr "Responses from i2c devices at: ";
        OStrs (map HexString.of_Z found)]] /\
    (List.length errs + List.length found)%nat = 250%nat /\
    Forall (fun line => exists err, line = [OStr err]) errs.
Proof.
  apply (scan_traffic (fresh only_0x50) (snd (scan (fresh only_0x50)))).
  vm_compute. reflexivity.
Defined.

(** ** The trace is what the device served *)

Section Served.
Context {D : Type} `{UsbDevice D}.

Lemma served_app (d d1 d2 : D) (t1 t2 : list event) :
  served d t1 d1 -> served d1 t2 d2 -> served d (t1 ++ t2) d2.
Proof.
  induction 1 as [d | d d' d'' ep data r t Hw _ IH
                    | d d' d'' ep size timeout r t Hr _ IH];
    intros H2; cbn [app].
  - assumption.
  - econstructor; [eassumption | now apply IH].
  - econstructor; [eassumption | now apply IH].
Qed.

Lemma serves_ret {A : Type} (a : A) : serves (D := D) (ret a).
Proof.
  intros w. exists []. cbn [ret snd]. rewrite app_nil_r.
  split; [reflexivity | constructor].
Qed.

Lemma serves_raise {A : Type} (e : exn) : serves (D := D) (A := A) (raise e).
Proof.
  intros w. exists []. cbn [raise snd]. rewrite app_nil_r.
  split; [reflexivity | constructor].
Qed.

Lemma serves_print (args : list pyobj) : serves (D := D) (print args).
Proof.
  intros w. exists []. cbn [print snd w_trace w_dev]. rewrite app_nil_r.
  split; [reflexivity | constructor].
Qed.

Lemma serves_usb_write (ep : Z) (data : list Z) :
  serves (D := D) (usb_write ep data).
Proof.
  intros w. unfold usb_write.
  destruct (dev_write (w_dev w) ep data) as [r d] eqn:Hdev.
  exists [EvWrite ep data r].
  destruct r; cbn [snd w_trace w_dev];
    (split; [reflexivity | econstructor; [eassumption | constructor]]).
Qed.

Lemma serves_usb_read (ep size : Z) (timeout : option Z) :
  serves (D := D) (usb_read ep size timeout).
Proof.
  intros w. unfold usb_read.
  destruct (dev_read (w_dev w) ep size timeout) as [r d] eqn:Hdev.
  exists [EvRead ep size timeout r].
  destruct r; cbn [snd w_trace w_dev];
    (split; [reflexivity | econstructor; [eassumption | constructor]]).
Qed.

Lemma serves_bind {A B : Type} (m : @M D A) (k : A -> @M D B) :
  serves m -> (forall a, serves (k a)) -> serves (bind m k).
Proof.
  intros Hm Hk w. unfold bind.
  destruct (Hm w) as [t1 [Ht1 Hs1]].
  destruct (m w) as [[a | e] w1]; cbn [snd] in *.
  - destruct (Hk a w1) as [t2 [Ht2 Hs2]].
    exists (t1 ++ t2). rewrite Ht2, Ht1, app_assoc.
    split; [reflexivity | now apply served_app with (d1 := w_dev w1)].
  - now exists t1.
Qed.

Ltac serve :=
  repeat first
    [ apply serves_ret | apply serves_raise | apply serves_print
    | apply serves_usb_write | apply serves_usb_read
    | apply serves_bind; [|intros ?]
    | match goal with
      | |- serves (if ?b then _ else _) => destruct b
      | |- serves (match ?x with _ => _ end) => destruct x
      end ].

Lemma serves_start : serves (D := D) __start.
Proof. unfold __start. serve. Qed.

Lemma serves_stop : serves (D := D) __stop.
Proof. unfold __stop. serve. Qed.

Lemma serves_write_bytes (data : wdata) : serves (D := D) (__write_bytes data).
Proof. unfold __write_bytes, __check_ack. serve. Qed.

Lemma serves_read_bytes (length : Z) : serves (D := D) (__read_bytes length).
Proof. unfold __read_bytes. serve. Qed.

Lemma block_serves_nil {L : Type} : block_serves (D := D) (L := L) [].
Proof.
  intros l w. exists []. cbn [block snd]. rewrite app_nil_r.
  split; [reflexivity | constructor].
Qed.

Lemma block_serves_cons {L : Type} (s : @stmt D L) (rest : list (stmt L)) :
  (forall l, serves (s l)) -> block_serves rest -> block_serves (s :: rest).
Proof.
  intros Hs Hrest l w. cbn [block].
  destruct (Hs l w) as [t1 [Ht1 Hs1]].
  destruct (s l w) as [[l' | e] w1]; cbn [snd] in *.
  - destruct (Hrest l' w1) as [t2 [Ht2 Hs2]].
    exists (t1 ++ t2). rewrite Ht2, Ht1, app_assoc.
    split; [reflexivity | now apply served_app with (d1 := w_dev w1)].
  - now exists t1.
Qed.

Ltac serve_block :=
  repeat (apply block_serves_cons;
          [ intros ?; unfold call, assign;
            first [ apply serves_bind;
                    [ first [ apply serves_start | apply serves_stop
                            | apply serves_write_bytes
                            | apply serves_read_bytes ]
                    | intros ?; apply serves_ret ] ]
          | ]);
  try apply block_serves_nil.

(** The handler of the operations leaves device and trace alone. *)
Lemma try_except_world {L : Type} (body : list (@stmt D L))
    (handler : string -> stmt L) (hret : L -> L) :
  (forall err l w,
     handler err l w =
     (Ok (hret l), World (w_dev w) (w_trace w) (w_out w ++ [[OStr err]]))) ->
  forall l w,
    w_trace (snd (try_except body handler l w)) =
      w_trace (snd (block body l w)) /\
    w_dev (snd (try_except body handler l w)) =
      w_dev (snd (block body l w)).
Proof.
  intros Hh l w. unfold try_except.
  destruct (block body l w) as [[l' [[err | m] |]] w']; cbn [snd].
  - rewrite Hh. now split.
  - now split.
  - now split.
Qed.

Lemma try_except_serves {L : Type} (body : list (@stmt D L))
    (handler : string -> stmt L) (hret : L -> L) :
  (forall err l w,
     handler err l w =
     (Ok (hret l), World (w_dev w) (w_trace w) (w_out w ++ [[OStr err]]))) ->
  block_serves body ->
  forall l, serves (try_except body handler l).
Proof.
  intros Hh Hb l w.
  destruct (try_except_world body handler hret Hh l w) as [-> ->].
  apply Hb.
Qed.

Lemma detect_serves (addr : Z) : serves (D := D) (detect addr).
Proof.
  unfold detect. apply serves_bind; [|intros; apply serves_ret].
  apply (try_except_serves _ _ (fun _ => false)); [reflexivity|].
  serve_block.
Qed.

Lemma write_serves (addr : Z) (off : option Z) (data : wdata) :
  serves (D := D) (write_byte_data addr off data).
Proof.
  unfold write_byte_data.
  apply (try_except_serves _ _ (fun l => l)).
  - intros err [] w. reflexivity.
  - destruct off; cbn [write_off app]; serve_block.
Qed.

Lemma read_block_serves (addr off length : Z) :
  serves (D := D) (read_i2c_block_data addr off length).
Proof.
  unfold read_i2c_block_data. apply serves_bind; [|intros; apply serves_ret].
  apply (try_except_serves _ _ (fun l => l)); [reflexivity|].
  serve_block.
Qed.

Lemma op_serves (o : operation) : serves (D := D) (run_op o).
Proof.
  destruct o as [addr off byte | addr off data | addr off | addr off length];
    cbn [run_op].
  - apply serves_bind; [apply write_serves | intros; apply serves_ret].
  - apply serves_bind; [apply write_serves | intros; apply serves_ret].
  - intros w. rewrite read_byte_as_block. cbn [snd].
    apply read_block_serves.
  - apply read_block_serves.
Qed.

(** *** How an operation ends *)

(** C4 (as the code has it): the trace of a public operation is what the
    device answered to an initial part of the operation's script, and it
    ends in one of two ways.  Either no event fails: the whole script was
    performed, the operation returns its value and prints nothing but a list
    payload.  Or the last event, and only it, fails.  If the device raised,
    its exception reaches the caller.  Otherwise the driver raised a
    [ConnectionError], which never reaches the caller: the operation prints
    the message of that event and returns normally, [None] for a write
    operation and for a read operation that made fewer than its twelve
    requests, the data of the READ phase for a read operation whose closing
    STOP frame is the event that failed. *)
Theorem operation_outcome (o : operation) (w : world D) :
  exists t,
    w_trace (snd (run_op o w)) = w_trace w ++ t /\
    served (w_dev w) t (w_dev (snd (run_op o w))) /\
    (exists rest, map req_of t ++ rest = script (op_phases o)) /\
    ((forallb ok_event t = true /\
      map req_of t = script (op_phases o) /\
      exists v,
        fst (run_op o w) = Ok v /\
        op_value o t v /\
        w_out (snd (run_op o w)) = w_out w ++ payload_prints o) \/
     (exists t0 ev p rest,
        t = t0 ++ [ev] /\
        forallb ok_event t0 = true /\
        ok_event ev = false /\
        p ++ rest = payload_prints o /\
        match xfer_error ev with
        | Some m =>
            fst (run_op o w) = Raise (USBError m) /\
            w_out (snd (run_op o w)) = w_out w ++ p
        | None =>
            exists v,
              fst (run_op o w) = Ok v /\
              op_value o t v /\
              w_out (snd (run_op o w)) =
                w_out w ++ p ++ [[OStr (message_of ev)]]
        end)).
Proof.
  destruct (op_report o w)
    as [t [oe [p [rest [v [Ht [Hr [Hp [Hn [Hhd [Hv Hdiag]]]]]]]]]]].
  destruct (op_serves o w) as [t' [Ht' Hs]].
  rewrite Ht in Ht'. apply app_inv_head in Ht'. subst t'.
  exists t. split; [assumption|]. split; [assumption|].
  split; [exact (run_of_prefix _ _ _ Hr)|].
  destruct oe as [e |].
  - right.
    inversion Hr as [| t0 ev e0 rest' Hreq Hok Hbad Hexn]; subst.
    exists t0, ev, p, rest.
    split; [reflexivity|]. split; [assumption|]. split; [assumption|].
    split; [assumption|].
    apply raised_by_cases in Hexn.
    destruct (xfer_error ev) as [m |].
    + subst e. cbn [handled] in Hhd. exact Hhd.
    + destruct Hexn as [err ->].
      destruct (Hdiag err eq_refl) as [t0' [ev' [Heq ->]]].
      apply app_inj_tail in Heq. destruct Heq as [_ <-].
      cbn [handled] in Hhd. destruct Hhd as [Hres Hout].
      exists v. rewrite Hout, <- app_assoc. now repeat split.
  - left. inversion Hr as [t0 Hreq Hok |]; subst.
    rewrite (Hn eq_refl), app_nil_r in Hp. subst p.
    cbn [handled] in Hhd. destruct Hhd as [Hres Hout].
    split; [assumption|]. split; [assumption|]. now exists v.
Qed.

(** C6 (as the code has it): [read_byte_data] asks the device, in this
    order, for START, WRITE(addr<<1), WRITE(off), STOP, START,
    WRITE(addr<<1 | 1), READ(1), STOP, the twelve requests written out
    below, and stops at the first event that fails.  When none fails, all
    twelve were made and the call returns the single byte the READ phase
    delivered.  When one fails it is the last thing asked of the device: an
    exception of the device reaches the caller; otherwise the message of the
    event is printed and the call returns [None], or the byte read when only
    the closing STOP frame failed. *)
Theorem read_byte_data_phases (addr off : Z) (w : world D) :
  exists t,
    w_trace (snd (read_byte_data addr off w)) = w_trace w ++ t /\
    served (w_dev w) t (w_dev (snd (read_byte_data addr off w))) /\
    (exists rest,
       map req_of t ++ rest =
       [ReqWrite EP_OUT [0xaa; 0x74; 0x00];
        ReqWrite EP_OUT [0xaa; 0x80; Z.shiftl addr 1; 0x00];
        ReqRead EP_IN 32 None;
        ReqWrite EP_OUT [0xaa; 0x80; off; 0x00];
        ReqRead EP_IN 32 None;
        ReqWrite EP_OUT [0xaa; 0x75; 0x00];
        ReqWrite EP_OUT [0xaa; 0x74; 0x00];
        ReqWrite EP_OUT [0xaa; 0x80; Z.lor (Z.shiftl addr 1) 1; 0x00];
        ReqRead EP_IN 32 None;
        ReqWrite EP_OUT [0xaa; 0xc1; 0x00];
        ReqRead EP_IN 1 (Some 100);
        ReqWrite EP_OUT [0xaa; 0x75; 0x00]]) /\
    ((forallb ok_event t = true /\
      List.length t = 12%nat /\
      exists b,
        nth_error t 10 = Some (EvRead EP_IN 1 (Some 100) (Xfer [b])) /\
        fst (read_byte_data addr off w) = Ok (RInt b) /\
        w_out (snd (read_byte_data addr off w)) = w_out w) \/
     (exists t0 ev,
        t = t0 ++ [ev] /\
        forallb ok_event t0 = true /\
        ok_event ev = false /\
        match xfer_error ev with
        | Some m =>
            fst (read_byte_data addr off w) = Raise (USBError m) /\
            w_out (snd (read_byte_data addr off w)) = w_out w
        | None =>
            w_out (snd (read_byte_data addr off w)) =
              w_out w ++ [[OStr (message_of ev)]] /\
            (((List.length t < 12)%nat /\
              fst (read_byte_data addr off w) = Ok RNone) \/
             (List.length t = 12%nat /\
              exists b,
                nth_error t 10 = Some (EvRead EP_IN 1 (Some 100) (Xfer [b])) /\
                fst (read_byte_data addr off w) = Ok (RInt b)))
        end)).
Proof.
  destruct (read_byte_report addr off w)
    as [t [oe [v [Ht [Hr [Hhd [Hv Hdiag]]]]]]].
  destruct (op_serves (ReadByteData addr off) w) as [t' [Ht' Hs]].
  cbn [run_op] in Ht', Hs.
  rewrite Ht in Ht'. apply app_inv_head in Ht'. subst t'.
  cbn [op_value] in Hv.
  exists t. split; [assumption|]. split; [assumption|].
  split; [exact (run_of_prefix _ _ _ Hr)|].
  destruct oe as [e |].
  - right.
    inversion Hr as [| t0 ev e0 rest' Hreq Hok Hbad Hexn]; subst.
    exists t0, ev.
    split; [reflexivity|]. split; [assumption|]. split; [assumption|].
    apply raised_by_cases in Hexn.
    destruct (xfer_error ev) as [m |].
    + subst e. cbn [handled] in Hhd. exact Hhd.
    + destruct Hexn as [err ->].
      destruct (Hdiag err eq_refl) as [t0' [ev' [Heq ->]]].
      apply app_inj_tail in Heq. destruct Heq as [_ <-].
      cbn [handled] in Hhd. destruct Hhd as [Hres Hout].
      split; [assumption|]. rewrite Hres.
      destruct Hv as [[-> Hlt] | [b [-> [Hlen Hnth]]]].
      * left. now split.
      * right. split; [assumption|]. now exists b.
  - left. inversion Hr as [t0 Hreq Hok |]; subst.
    assert (Hlen : List.length t = 12%nat).
    { rewrite <- (length_map req_of), Hreq. reflexivity. }
    cbn [handled] in Hhd. destruct Hhd as [Hres Hout].
    split; [assumption|]. split; [assumption|].
    destruct Hv as [[_ Hlt] | [b [-> [_ Hnth]]]]; [lia|].
    now exists b.
Qed.

(** *** Addresses beyond seven bits *)

Lemma served_write_answer (d d' : D) (t t1 t2 : list event) (ep : Z)
    (data : list Z) (r : xfer Z) :
  served d t d' -> t = t1 ++ EvWrite ep data r :: t2 ->
  exists d1, fst (dev_write d1 ep data) = r.
Proof.
  intros Hs. revert t1.
  induction Hs as [d | d d' d'' ep0 data0 r0 t Hw _ IH
                     | d d' d'' ep0 size timeout r0 t Hr _ IH];
    intros t1 Heq.
  - destruct t1; discriminate.
  - destruct t1 as [|e t1]; cbn [app] in Heq; injection Heq.
    + intros _ -> -> ->. exists d. now rewrite Hw.
    + intros Heq' _. now apply (IH t1).
  - destruct t1 as [|e t1]; cbn [app] in Heq; [discriminate|].
    injection Heq as _ Heq'. now apply (IH t1).
Qed.

Lemma address_frame_range (x : Z) :
  forallb byte_range [VendorCmd.I2C; I2CCmd.OUT; x; I2CCmd.END]
  = byte_range x.
Proof. cbn [forallb]. now destruct (byte_range x). Qed.

(** X13: behind a handle that refuses frames with an element outside
    0..255, the probe of an address outside 0..127 never returns [True] and
    never gets past its second device call, the write of the address frame,
    which the handle refuses; if the START frame before it was written in
    full, the probe ends with the exception of the handle. *)
Theorem detect_beyond_seven_bits (addr : Z) (w : world D) :
  refuses_non_bytes D ->
  ~ 0 <= addr <= 127 ->
  exists t,
    w_trace (snd (detect addr w)) = w_trace w ++ t /\
    (1 <= List.length t <= 2)%nat /\
    fst (detect addr w) <> Ok true /\
    (forall d,
       dev_write (w_dev w) EP_OUT [VendorCmd.I2C; I2CCmd.STA; I2CCmd.END]
       = (Xfer 3, d) ->
       exists m, fst (detect addr w) = Raise (USBError m)).
Proof.
  intros Hstrict Haddr.
  destruct (detect_report addr w) as [t [oe [Ht [Hr [Hhd _]]]]].
  destruct (detect_serves addr w) as [t' [Ht' Hs]].
  rewrite Ht in Ht'. apply app_inv_head in Ht'. subst t'.
  assert (Hrefused : forall t1 ev t2,
            t = t1 ++ ev :: t2 ->
            req_of ev =
              ReqWrite EP_OUT
                [VendorCmd.I2C; I2CCmd.OUT; Z.shiftl addr 1; I2CCmd.END] ->
            ok_event ev = false /\ exists m, xfer_error ev = Some m).
  { intros t1 ev t2 Hsplit Hreq.
    destruct ev as [ep data r | ep size timeout r]; [|discriminate].
    cbn [req_of] in Hreq.
    assert (Hep : ep = EP_OUT) by congruence.
    assert (Hdata : data = [VendorCmd.I2C; I2CCmd.OUT; Z.shiftl addr 1;
                            I2CCmd.END]) by congruence.
    subst ep data.
    destruct (served_write_answer _ _ _ _ _ _ _ _ Hs Hsplit) as [d1 Hd1].
    destruct (Hstrict d1 EP_OUT
                [VendorCmd.I2C; I2CCmd.OUT; Z.shiftl addr 1; I2CCmd.END])
      as [m Hm].
    { rewrite address_frame_range. unfold byte_range.
      rewrite Z.shiftl_mul_pow2 by lia. change (2 ^ 1) with 2.
      apply andb_false_iff.
      destruct (Z.leb_spec 0 (addr * 2)); [right | now left].
      apply Z.leb_gt. lia. }
    rewrite Hm in Hd1. subst r. split; [reflexivity | now exists m]. }
  unfold script, probe_phases in Hr. cbn [map List.concat] in Hr.
  cbn [phase_requests app write_cmd] in Hr.
  exists t. split; [assumption|].
  inversion Hr as [t0 Hreq Hok | t0 ev e rest Hreq Hok Hbad Hexn]; subst.
  - exfalso.
    destruct t as [|e1 [|e2 t]]; try discriminate.
    injection Hreq as _ Hreq2 _.
    destruct (Hrefused [e1] e2 t eq_refl Hreq2) as [Hbad _].
    cbn [forallb] in Hok. rewrite Hbad, andb_false_r in Hok. discriminate.
  - destruct t0 as [|e1 [|e2 t0]].
    + cbn [app List.length]. split; [lia|]. split.
      * destruct e as [err | m]; cbn [handled] in Hhd;
          destruct Hhd as [-> _]; discriminate.
      * intros d Hstart. exfalso.
        cbn [app map] in Hreq. injection Hreq as Hreq1 _.
        destruct ev as [ep data r | ep size timeout r]; [|discriminate].
        injection Hreq1 as -> ->.
        inversion Hs as [| d0 d' d'' ep data r0 t' Hw _ |]; subst.
        rewrite Hstart in Hw. injection Hw as <- _.
        discriminate.
    + cbn [app map] in Hreq. injection Hreq as _ Hreq2 _.
      destruct (Hrefused [e1] ev [] eq_refl Hreq2) as [_ [m Hm]].
      apply raised_by_cases in Hexn. rewrite Hm in Hexn. subst e.
      cbn [handled] in Hhd. destruct Hhd as [Hres _].
      cbn [app List.length]. split; [lia|]. rewrite Hres.
      split; [discriminate|]. intros _ _. now exists m.
    + exfalso. cbn [app map] in Hreq. injection Hreq as _ Hreq2 _.
      destruct (Hrefused [e1] e2 (t0 ++ [ev]) eq_refl Hreq2) as [Hbad2 _].
      cbn [forallb] in Hok. rewrite Hbad2, andb_false_r in Hok.
      discriminate.
Qed.

End Served.

(** ** Runs behind a handle that only takes bytes *)

Lemma bytewise_refuses : refuses_non_bytes bytewise.
Proof.
  intros d ep data Hrange. cbn [dev_write bytewise_device].
  unfold bytewise_write.
  destruct (find (fun z => negb (byte_range z)) data) as [z |] eqn:Hfind.
  - eexists. reflexivity.
  - exfalso.
    assert (Hall : forallb byte_range data = true).
    { apply forallb_forall. intros x Hx.
      pose proof (find_none _ _ Hfind x Hx) as Hneg.
      now apply negb_false_iff in Hneg. }
    congruence.
Qed.

Lemma detect_beyond_seven_bits_witness :
  exists t,
    w_trace (snd (detect 128 (fresh (Bytewise only_0x50)))) =
      w_trace (fresh (Bytewise only_0x50)) ++ t /\
    (1 <= List.length t <= 2)%nat /\
    fst (detect 128 (fresh (Bytewise only_0x50))) <> Ok true /\
    (forall d,
       dev_write (w_dev (fresh (Bytewise only_0x50))) EP_OUT
                 [VendorCmd.I2C; I2CCmd.STA; I2CCmd.END]
       = (Xfer 3, d) ->
       exists m,
         fst (detect 128 (fresh (Bytewise only_0x50))) = Raise (USBError m)).
Proof.
  apply (detect_beyond_seven_bits 128 (fresh (Bytewise only_0x50))).
  - apply bytewise_refuses.
  - lia.
Defined.

(** C6, on a run: the device does not acknowledge its address.  Three
    requests are made instead of twelve, and the call returns [None]. *)
Lemma read_byte_data_stops_at_nak :
  read_byte_data 0x50 0x10 (fresh (Scripted [] [Xfer [0x80]])) =
    (Ok RNone,
     World (Scripted [] [])
           [EvWrite EP_OUT [0xaa; 0x74; 0x00] (Xfer 3);
            EvWrite EP_OUT [0xaa; 0x80; 0xa0; 0x00] (Xfer 4);
            EvRead EP_IN 32 None (Xfer [0x80])]
           [[OStr "I2C ACK not received"]]).
Proof. vm_compute. reflexivity. Qed.

(** C9, on the run the program makes: behind a handle that only takes
    bytes, on a bus where the device at 0x50 answers, the scan probes the
    addresses 0 to 128 and ends there with the exception of the handle: the
    address frame of 128 carries 256.  The addresses 129 to 249 are never
    probed and no result line is printed, the console only holds the 127
    lines of the addresses below 128 that did not answer. *)
Theorem scan_aborts_at_128 :
  fst (scan (fresh (Bytewise only_0x50))) =
    Raise (USBError "unsigned byte integer is greater than maximum") /\
  last (w_trace (snd (scan (fresh (Bytewise only_0x50)))))
       (EvRead 0 0 None (Xfer [])) =
    EvWrite EP_OUT [0xaa; 0x80; 256; 0x00]
            (XferError "unsigned byte integer is greater than maximum") /\
  List.length
    (filter start_request
       (map req_of (w_trace (snd (scan (fresh (Bytewise only_0x50)))))))
  = 129%nat /\
  w_out (snd (scan (fresh (Bytewise only_0x50)))) =
    repeat [OStr "I2C ACK not received"] 127.
Proof. repeat split; vm_compute; reflexivity. Qed.
